(** * f110 imitation learning: the transform pipeline and the epoch loop

    A shallow embedding of [Data_Utils.py] (the per-record transforms, the
    operation registry, [apply_flist], [get_finaldf] and [MOVE]) and of
    [NN/train.py] ([Trainer.loss_pass], [Trainer.TRAIN],
    [Trainer.get_dataloaders] and [Trainer.hasLinear]), followed by the
    properties established about them.

    Modelling conventions.
    - Python exceptions are values of [exn]; a call that may raise returns a
      [result]; code that also touches the file system or torch's global
      state runs in the state-and-exception monad [M].
    - In the transforms a Python [float] (an angle, an offset) is an exact
      rational of [Q].  The losses of [NN/train.py] and the split fraction
      of [get_dataloaders] are IEEE 754 binary64 numbers, the primitive
      [float]: sums and products are rounded, and NaN and the infinities
      compare, as Python's floats do.
    - Every external call of the training loop (the loader, the network,
      the loss function, the optimizer, the visualizer) can raise: a batch
      carries the call that raises for it, if one does.
    - The dict threaded through the transforms has the fixed keys "img",
      "row", "flag" and "img_name"; it is the record [pydict], an absent key
      being [None] (the code reads every key with [dict.get]). *)

From Stdlib Require Import List String Ascii ZArith QArith Bool Arith Lia.
From Stdlib Require Import Permutation Floats.
From Stdlib Require Uint63.
Import ListNotations.

(* Decimal literals such as 0.1 stand for the nearest double, as in Python. *)
#[local] Set Warnings "-inexact-float".

Local Open Scope string_scope.

(** ** Exceptions and results *)

Inductive exn : Type :=
| AssertionError (msg : string)
| Exception (msg : string)
| TypeError
| LookupError
| AttributeError
| NameError
| OSError
| CvError
| ValueError
| OverflowError.

Inductive result (A : Type) : Type :=
| Ok (a : A)
| Raise (e : exn).

Arguments Ok {A} a.
Arguments Raise {A} e.

Definition rbind {A B : Type} (r : result A) (k : A -> result B) : result B :=
  match r with
  | Ok a => k a
  | Raise e => Raise e
  end.

Definition py_assert (b : bool) (msg : string) : result unit :=
  if b then Ok tt else Raise (AssertionError msg).

Declare Scope result_scope.
Delimit Scope result_scope with result.
Notation "x <~ r ;; k" := (rbind r (fun x => k))
  (at level 61, r at next level, right associativity) : result_scope.
Notation "r ;;; k" := (rbind r (fun _ => k))
  (at level 61, right associativity) : result_scope.

(** ** Values, rows and images *)

(** A JSON scalar or a cell of the index: a string, an integer or a float. *)
Inductive value : Type :=
| VStr (s : string)
| VInt (z : Z)
| VNum (q : Q).

(** The numeric reading of a value, when it has one. *)
Definition py_num (v : value) : option Q :=
  match v with
  | VStr _ => None
  | VInt z => Some (inject_Z z)
  | VNum q => Some q
  end.

(** [a + b] *)
Definition py_add (a b : value) : result value :=
  match a, b with
  | VStr s, VStr t => Ok (VStr (s ++ t))
  | VInt x, VInt y => Ok (VInt (x + y))
  | VStr _, _ | _, VStr _ => Raise TypeError
  | VInt x, VNum q => Ok (VNum (inject_Z x + q))
  | VNum p, VInt y => Ok (VNum (p + inject_Z y))
  | VNum p, VNum q => Ok (VNum (p + q))
  end.

(** [c * v] for a float literal [c] *)
Definition py_float_mul (c : Q) (v : value) : result value :=
  match py_num v with
  | Some q => Ok (VNum (c * q))
  | None => Raise TypeError
  end.

(** [v * c] for a float literal [c] *)
Definition py_mul_float (v : value) (c : Q) : result value :=
  match py_num v with
  | Some q => Ok (VNum (q * c))
  | None => Raise TypeError
  end.

(** [v / c] for a non-zero float [c] *)
Definition py_div_float (v : value) (c : Q) : result value :=
  match py_num v with
  | Some q => Ok (VNum (q / c))
  | None => Raise TypeError
  end.

(** [v == 0.0]: a string is never equal to a float. *)
Definition py_eq_zero (v : value) : bool :=
  match py_num v with
  | Some q => Qeq_bool q 0
  | None => false
  end.

(** [v < 0] and [v > 0] against the integer literal [0]. *)
Definition py_lt_zero (v : value) : result bool :=
  match py_num v with
  | Some q => Ok (negb (Qle_bool 0 q))
  | None => Raise TypeError
  end.

Definition py_gt_zero (v : value) : result bool :=
  match py_num v with
  | Some q => Ok (negb (Qle_bool q 0))
  | None => Raise TypeError
  end.

(** [math.pi], the double nearest to pi: 0x1.921fb54442d18p+1. *)
Definition math_pi : Q := 884279719003555 # 281474976710656.

(** An image is a height x width x channel array. *)
Definition pixel : Type := list Z.
Definition image : Type := list (list pixel).

(** [cv2.flip(img, 1)]: mirror around the vertical axis, that is reverse
    every row of pixels.  [cv2.flip(None, 1)] raises. *)
Definition cv2_flip_h (src : option image) : result image :=
  match src with
  | Some im => Ok (map (@rev pixel) im)
  | None => Raise CvError
  end.

(** Python's slice bounds on a sequence of length [n]. *)
Definition clamp_index (n i : Z) : Z :=
  if (i <? 0)%Z then Z.max (i + n) 0 else Z.min i n.

(** [l[start:stop]] ([stop = None] for [l[start:]]) *)
Definition py_slice {A : Type} (start : Z) (stop : option Z) (l : list A) : list A :=
  let n := Z.of_nat (List.length l) in
  let s := clamp_index n start in
  let e := match stop with Some e => clamp_index n e | None => n end in
  firstn (Z.to_nat (e - s)) (skipn (Z.to_nat s) l).

(** A slice bound has to be an integer. *)
Definition py_index (v : value) : result Z :=
  match v with
  | VInt z => Ok z
  | _ => Raise TypeError
  end.

(** What the key "row" holds: the pandas Series read from the index, or a
    bare scalar once [radOffset] or [rad2deg] has overwritten it. *)
Inductive rowval : Type :=
| Series (cells : list value)
| Scalar (v : value).

(** [l[i]] on a list of scalars, as in [args[0]]. *)
Definition list_getitem (l : list value) (i : nat) : result value :=
  match nth_error l i with
  | Some v => Ok v
  | None => Raise LookupError
  end.

(** [row[i]] *)
Definition row_getitem (r : option rowval) (i : nat) : result value :=
  match r with
  | None => Raise TypeError
  | Some (Series cells) => list_getitem cells i
  | Some (Scalar (VStr s)) =>
      match String.get i s with
      | Some c => Ok (VStr (String c EmptyString))
      | None => Raise LookupError
      end
  | Some (Scalar _) => Raise TypeError
  end.

(** The list [l] with position [i] overwritten; [l] itself out of range. *)
Fixpoint list_set {A : Type} (i : nat) (x : A) (l : list A) : list A :=
  match l, i with
  | [], _ => []
  | _ :: t, O => x :: t
  | h :: t, S j => h :: list_set j x t
  end.

(** [row[i] = x] *)
Definition row_setitem (r : option rowval) (i : nat) (x : value) : result rowval :=
  match r with
  | Some (Series cells) =>
      if Nat.ltb i (List.length cells) then Ok (Series (list_set i x cells))
      else Raise LookupError
  | _ => Raise TypeError
  end.

(** The dict passed from one transform to the next. *)
Record pydict : Type := mkDict {
  img : option image;
  row : option rowval;
  flag : option bool;
  img_name : option value
}.

Definition set_img (d : pydict) (x : image) : pydict :=
  mkDict (Some x) (row d) (flag d) (img_name d).
Definition set_row (d : pydict) (x : rowval) : pydict :=
  mkDict (img d) (Some x) (flag d) (img_name d).
Definition set_flag (d : pydict) (x : bool) : pydict :=
  mkDict (img d) (row d) (Some x) (img_name d).

(** ** The transforms of [Data_Utils.py] *)

Local Open Scope result_scope.

Definition cropVertical (args : list value) (src_dict : pydict) : result pydict :=
  py_assert (Nat.eqb (List.length args) 2) "Incorrect sized argument to cropVertical" ;;;
  cropStart <~ list_getitem args 0 ;;
  cropEnd <~ list_getitem args 1 ;;
  let src_img := img src_dict in
  neg <~ py_lt_zero cropEnd ;;
  if neg then
    match src_img with
    | None => Raise TypeError
    | Some im =>
        s <~ py_index cropStart ;;
        Ok (set_img src_dict (py_slice s None im))
    end
  else
    pos <~ py_gt_zero cropEnd ;;
    if pos then
      match src_img with
      | None => Raise TypeError
      | Some im =>
          s <~ py_index cropStart ;;
          e <~ py_index cropEnd ;;
          Ok (set_img src_dict (py_slice s (Some e) im))
      end
    else Raise (Exception "bad args cropvertical").

(** The clockwise branch reads the name [img], which is bound nowhere. *)
Definition rot90 (args : list value) (src_dict : pydict) : result pydict :=
  py_assert (Nat.eqb (List.length args) 1) "Incorrect sized argument to rot90" ;;;
  direction <~ list_getitem args 0 ;;
  match direction with
  | VStr "clockwise" => Raise NameError
  | _ => Ok src_dict
  end.

Definition radOffset (args : list value) (src_dict : pydict) : result pydict :=
  py_assert (Nat.eqb (List.length args) 1) "Incorrect sized argument to radOffset" ;;;
  offset <~ list_getitem args 0 ;;
  let src_row := row src_dict in
  angle <~ row_getitem src_row 1 ;;
  new <~ py_add angle offset ;;
  Ok (set_row src_dict (Scalar new)).

Definition rad2deg (args : list value) (src_dict : pydict) : result pydict :=
  py_assert (Nat.eqb (List.length args) 0) "Incorrect sized arguments to rad2deg" ;;;
  let src_row := row src_dict in
  angle <~ row_getitem src_row 1 ;;
  scaled <~ py_mul_float angle 180 ;;
  new <~ py_div_float scaled math_pi ;;
  Ok (set_row src_dict (Scalar new)).

Definition flipNonZero (args : list value) (src_dict : pydict) : result pydict :=
  py_assert (Nat.eqb (List.length args) 0) "Incorrect sized argumnets to flipNonzero" ;;;
  let src_img := img src_dict in
  let src_row := row src_dict in
  angle <~ row_getitem src_row 1 ;;
  if py_eq_zero angle then
    Ok (set_flag src_dict false)
  else
    let d1 := set_flag src_dict true in
    flipped <~ cv2_flip_h src_img ;;
    let d2 := set_img d1 flipped in
    negated <~ py_float_mul (-1) angle ;;
    new_row <~ row_setitem (row d2) 1 negated ;;
    Ok (set_row d2 new_row).

(** ** JSON-formatted functions *)

(** A JSON-formatted function: [{"F": name, "args": [...]}]. *)
Record json_func : Type := mkFunc {
  F : string;
  args : list value
}.

(** [functools.partial(f, args)]: the transform waiting for its dict. *)
Definition partial (f : list value -> pydict -> result pydict) (a : list value)
  : pydict -> result pydict := f a.

(** ** Data frames and the file system *)

Record dataframe : Type := mkDf {
  columns : list string;
  rows : list (list value)
}.

(** [len(df)] *)
Definition df_len (df : dataframe) : nat := List.length (rows df).

(** [df.iloc[idx]] *)
Definition df_iloc (df : dataframe) (idx : nat) : result (list value) :=
  match nth_error (rows df) idx with
  | Some r => Ok r
  | None => Raise LookupError
  end.

(** [df.append(other_df)]: the rows of [other] go below the rows of [df]. *)
Definition df_append (df other : dataframe) : dataframe :=
  mkDf (columns df) (rows df ++ rows other)%list.

(** [df.append(row)] for what the key "row" holds. *)
Definition df_append_row (df : dataframe) (r : option rowval) : result dataframe :=
  match r with
  | Some (Series cells) => Ok (mkDf (columns df) (rows df ++ [cells])%list)
  | _ => Raise TypeError
  end.

Definition starts_with_slash (s : string) : bool :=
  match s with
  | String c _ => Ascii.eqb c "/"%char
  | EmptyString => false
  end.

Fixpoint ends_with_slash (s : string) : bool :=
  match s with
  | EmptyString => false
  | String c EmptyString => Ascii.eqb c "/"%char
  | String _ t => ends_with_slash t
  end.

(** [os.path.join(a, b)] on POSIX. *)
Definition os_path_join (a b : string) : string :=
  if starts_with_slash b then b
  else if (a =? "") || ends_with_slash a then a ++ b
  else a ++ "/" ++ b.

Fixpoint lookup {A : Type} (k : string) (l : list (string * A)) : option A :=
  match l with
  | [] => None
  | (k', v) :: t => if k =? k' then Some v else lookup k t
  end.

Inductive io_event : Type :=
| IoMakedirs (path : string)
| IoReadCsv (path : string)
| IoImread (path : string)
| IoToCsv (path : string) (df : dataframe).

(** The part of the world [MOVE] sees: directories with their entries, the
    index files, the image files, and the log of the I/O calls made. *)
Record fs : Type := mkFs {
  dirs : list (string * list string);
  csv_files : list (string * dataframe);
  img_files : list (string * image);
  calls : list io_event
}.

(** ** The state-and-exception monad *)

Definition M (S A : Type) : Type := S -> S * result A.

Definition ret {S A : Type} (a : A) : M S A := fun s => (s, Ok a).
Definition raise {S A : Type} (e : exn) : M S A := fun s => (s, Raise e).
Definition lift {S A : Type} (r : result A) : M S A := fun s => (s, r).
Definition bind {S A B : Type} (m : M S A) (k : A -> M S B) : M S B :=
  fun s =>
    match m s with
    | (s', Ok a) => k a s'
    | (s', Raise e) => (s', Raise e)
    end.

Declare Scope monad_scope.
Delimit Scope monad_scope with monad.
Notation "x <- m ;; k" := (bind m (fun x => k))
  (at level 61, m at next level, right associativity) : monad_scope.
Notation "m ;; k" := (bind m (fun _ => k))
  (at level 61, right associativity) : monad_scope.

Local Open Scope monad_scope.

Definition log_call (e : io_event) : M fs unit :=
  fun w => (mkFs (dirs w) (csv_files w) (img_files w) (calls w ++ [e])%list, Ok tt).

Definition has_key {A : Type} (k : string) (l : list (string * A)) : bool :=
  match lookup k l with Some _ => true | None => false end.

Definition os_path_exists (p : string) : M fs bool :=
  fun w => (w, Ok (has_key p (dirs w) || has_key p (csv_files w) || has_key p (img_files w))).

Definition os_makedirs (p : string) : M fs unit :=
  log_call (IoMakedirs p) ;;
  fun w => (mkFs ((p, []) :: dirs w) (csv_files w) (img_files w) (calls w), Ok tt).

Definition os_listdir (p : string) : M fs (list string) :=
  fun w =>
    match lookup p (dirs w) with
    | Some entries => (w, Ok entries)
    | None => (w, Raise OSError)
    end.

Definition pd_read_csv (p : string) : M fs dataframe :=
  log_call (IoReadCsv p) ;;
  fun w =>
    match lookup p (csv_files w) with
    | Some df => (w, Ok df)
    | None => (w, Raise OSError)
    end.

(** [cv2.imread] returns [None] for a file it cannot read; it does not raise. *)
Definition cv2_imread (p : string) : M fs (option image) :=
  log_call (IoImread p) ;;
  fun w => (w, Ok (lookup p (img_files w))).

(** [df.to_csv(p, index=False)], [p] being [data.csv] inside a directory that
    has to exist. *)
Definition df_to_csv (df : dataframe) (p : string) : M fs unit :=
  fun w =>
    if existsb (fun d => os_path_join (fst d) "data.csv" =? p) (dirs w)
    then (mkFs (dirs w) ((p, df) :: csv_files w) (img_files w)
            (calls w ++ [IoToCsv p df])%list, Ok tt)
    else (w, Raise OSError).

(** [cv2.imwrite(dest_img, path)]: [MOVE] passes the image where OpenCV
    expects the file name and the path where it expects the image, and OpenCV
    rejects the call. *)
Definition cv2_imwrite_image_first (dest_img : option image) (p : string) : M fs unit :=
  raise CvError.

(** ** class Data_Utils *)

(** [str(n)] for a natural number. *)
Definition digit_of (n : nat) : ascii := ascii_of_nat (48 + n).

Fixpoint str_of_nat_fuel (fuel n : nat) (acc : string) : string :=
  match fuel with
  | O => acc
  | S fuel' =>
      let acc' := String (digit_of (n mod 10)) acc in
      if n / 10 =? 0 then acc' else str_of_nat_fuel fuel' (n / 10) acc'
  end%nat.

Definition str_of_nat (n : nat) : string := str_of_nat_fuel (S n) n "".

(** [range(n)] *)
Definition py_range (n : Z) : list nat := seq 0 (Z.to_nat n).

Module Data_Utils.

Definition get_dest_datapath (dest_datadir folder op : string) : M fs string :=
  if op =? "aug" then
    ret (os_path_join dest_datadir folder)
  else
    entries <- os_listdir dest_datadir ;;
    let new_folder := folder ++ str_of_nat (List.length entries) in
    ret (os_path_join dest_datadir new_folder).

Definition get_df (datapath : string) : M fs dataframe :=
  let csvpath := os_path_join datapath "data.csv" in
  pd_read_csv csvpath.

Definition df_data_fromidx (datapath : string) (df : dataframe) (idx : nat)
  : M fs (option image * list value) :=
  row <- lift (df_iloc df idx) ;;
  img_name <- lift (row_getitem (Some (Series row)) 0) ;;
  match img_name with
  | VStr name =>
      let img_path := os_path_join datapath name in
      img <- cv2_imread img_path ;;
      ret (img, row)
  | _ => raise TypeError
  end.

Definition get_finaldf (src_df dest_df : dataframe) (op : string) : dataframe :=
  let final_df := dest_df in
  if op =? "aug" then df_append dest_df src_df else final_df.

(** The row bound of the walk, [max(len(src_df), maxlen)], and the indices
    [range(...)] of it that the loop visits. *)
Definition MOVE_bound (src_df : dataframe) (maxlen : Z) : Z :=
  Z.max (Z.of_nat (df_len src_df)) maxlen.

Definition MOVE_indices (src_df : dataframe) (maxlen : Z) : list nat :=
  py_range (MOVE_bound src_df maxlen).

(** [dest_dict.get("flag", True)]: a record is kept unless its flag says no. *)
Definition dict_get_flag (d : pydict) : bool :=
  match flag d with
  | Some b => b
  | None => true
  end.

(** The registry: a name resolves to the transform applied to its arguments. *)
Definition get_partial_func (jf : json_func) : result (pydict -> result pydict) :=
  let fname := F jf in
  let args := args jf in
  if fname =? "cropVertical" then Ok (partial cropVertical args)
  else if fname =? "rad2deg" then Ok (partial rad2deg args)
  else if fname =? "radOffset" then Ok (partial radOffset args)
  else if fname =? "rot90" then Ok (partial rot90 args)
  else if fname =? "flipNonZero" then Ok (partial flipNonZero args)
  else Raise (Exception "{fname} is not in the list of functions").

(** The loop of [apply_flist] resolves every entry and does nothing with the
    partial it gets; the method ends without a [return], so the caller
    receives Python's [None], here the [None] of [option pydict]. *)
Fixpoint apply_flist (src_dict : pydict) (flist : list json_func)
  : result (option pydict) :=
  match flist with
  | [] => Ok None
  | jf :: rest =>
      partial_func <~ get_partial_func jf ;;
      apply_flist src_dict rest
  end.

(** One turn of the loop of [MOVE], from the data frame collected so far. *)
Definition MOVE_body (src_datapath dest_datapath : string) (src_df : dataframe)
    (flist : list json_func) (dest_df : dataframe) (i : nat) : M fs dataframe :=
  loaded <- df_data_fromidx src_datapath src_df i ;;
  let '(src_img, src_row) := loaded in
  let src_dict := mkDict src_img (Some (Series src_row)) None None in
  dest_dict <- lift (apply_flist src_dict flist) ;;
  match dest_dict with
  | None => raise AttributeError
  | Some d =>
      let flag := dict_get_flag d in
      if flag then
        let dest_row := row d in
        let dest_img := img d in
        first <- lift (row_getitem dest_row 0) ;;
        let dest_img_name := match img_name d with Some n => n | None => first end in
        dest_df' <- lift (df_append_row dest_df dest_row) ;;
        match dest_img_name with
        | VStr name =>
            cv2_imwrite_image_first dest_img (os_path_join dest_datapath name) ;;
            ret dest_df'
        | _ => raise TypeError
        end
      else ret dest_df
  end.

Fixpoint MOVE_loop (src_datapath dest_datapath : string) (src_df : dataframe)
    (flist : list json_func) (idxs : list nat) (dest_df : dataframe) : M fs dataframe :=
  match idxs with
  | [] => ret dest_df
  | i :: rest =>
      dest_df' <- MOVE_body src_datapath dest_datapath src_df flist dest_df i ;;
      MOVE_loop src_datapath dest_datapath src_df flist rest dest_df'
  end.

Definition MOVE_assert_msg (op : string) : string :=
  "MOVE Error: If op=" ++ op ++ ", src_datadir = dest_datadir".

(** The condition of the assertion at the entry of [MOVE]. *)
Definition MOVE_entry_check (op src_datadir dest_datadir : string) : bool :=
  (op =? "aug") && negb (src_datadir =? dest_datadir).

Definition MOVE (src_datadir folder dest_datadir : string) (flist : list json_func)
    (maxlen : Z) (op : string) : M fs unit :=
  lift (py_assert (MOVE_entry_check op src_datadir dest_datadir) (MOVE_assert_msg op)) ;;
  there <- os_path_exists dest_datadir ;;
  (if negb there then os_makedirs dest_datadir else ret tt) ;;
  let src_datapath := os_path_join src_datadir folder in
  dest_datapath <- get_dest_datapath dest_datadir folder op ;;
  src_df <- get_df src_datapath ;;
  let dest_df := mkDf (columns src_df) [] in
  dest_df <- MOVE_loop src_datapath dest_datapath src_df flist
               (MOVE_indices src_df maxlen) dest_df ;;
  let final_df := get_finaldf src_df dest_df op in
  df_to_csv final_df (os_path_join dest_datapath "data.csv").

(** The second registry, [tf_partial(fname, args)]: the same names, the name
    and the arguments passed apart. *)
Definition tf_partial (fname : string) (args : list value)
  : result (pydict -> result pydict) :=
  if fname =? "cropVertical" then Ok (partial cropVertical args)
  else if fname =? "rad2deg" then Ok (partial rad2deg args)
  else if fname =? "radOffset" then Ok (partial radOffset args)
  else if fname =? "rot90" then Ok (partial rot90 args)
  else if fname =? "flipNonZero" then Ok (partial flipNonZero args)
  else Raise (Exception "{fname} is not in the list of functions").

(** [get_partials_list(tf_list)]: every entry is resolved in list order and
    appended; the first unknown name ends the loop with its exception. *)
Fixpoint get_partials_list (tf_list : list json_func)
  : result (list (pydict -> result pydict)) :=
  match tf_list with
  | [] => Ok []
  | tf :: rest =>
      func <~ tf_partial (F tf) (args tf) ;;
      parsed <~ get_partials_list rest ;;
      Ok (func :: parsed)
  end.

(** [apply_tfs(old_img, old_row, tfs)]: each callable of [tfs] takes the image
    and the row and hands back the next image and row. *)
Fixpoint apply_tfs {I R : Type} (old_img : I) (old_row : R)
    (tfs : list (I -> R -> result (I * R))) : result (I * R) :=
  match tfs with
  | [] => Ok (old_img, old_row)
  | tf :: rest =>
      new <~ tf old_img old_row ;;
      apply_tfs (fst new) (snd new) rest
  end.

End Data_Utils.

(** ** [NN/train.py]: class Trainer *)

(** A loss is a Python [float], that is an IEEE 754 binary64 number, the
    primitive [float]: [+] on floats is Python's [+] with its rounding,
    [<?] is Python's [<] (false as soon as one side is NaN), and [infinity]
    is [float('inf')]. *)

(** [best > loss] *)
Definition best_gt (best loss : float) : bool := (loss <? best)%float.

(** The network, the loss function, the optimizer, the visualizer and the
    summary writer are external; what [Trainer] does with them is recorded as
    a history of calls next to torch's global gradient switch. *)
Inductive train_event : Type :=
| TZeroGrad
| TForward (grad : bool)
| TBackward
| TOptimStep
| TVisualize (global_step : nat)
| TSave (name : string) (epoch : nat)
| TAddScalar (tag : string) (value : float) (step : nat)
| TLogTraining (best_train best_valid : float)
| TClose.

Record torch : Type := mkTorch {
  grad_enabled : bool;
  history : list train_event
}.

Definition emit (e : train_event) : M torch unit :=
  fun w => (mkTorch (grad_enabled w) (history w ++ [e])%list, Ok tt).

(** [torch.set_grad_enabled(b)] *)
Definition set_grad_enabled (b : bool) : M torch unit :=
  fun w => (mkTorch b (history w), Ok tt).

(** The external calls of one turn of the loop of [loss_pass], in the order
    the loop makes them:
    - [Load]: fetching the batch from the loader, [input_dict.get] and
      [.to(device)];
    - [ZeroGrad]: [optim.zero_grad()];
    - [Forward]: [net(input_dict)] and [out_dict["angle"]];
    - [LossFunc]: [loss_func(ts_predanglebatch, ts_anglebatch)];
    - [Backward]: [ts_loss.backward()];
    - [Step]: [optim.step()];
    - [Item]: [ts_loss.item()];
    - [Visualize]: [self.vis.visualize_batch(...)]. *)
Inductive stage : Type :=
| Load
| ZeroGrad
| Forward
| LossFunc
| Backward
| Step
| Item
| Visualize.

Definition stage_eqb (a b : stage) : bool :=
  match a, b with
  | Load, Load | ZeroGrad, ZeroGrad | Forward, Forward | LossFunc, LossFunc
  | Backward, Backward | Step, Step | Item, Item | Visualize, Visualize => true
  | _, _ => false
  end.

(** A batch as the loader hands it over, reduced to what the external calls
    make of it: the value [item] of [ts_loss.item()], and the external call
    that raises for this batch, if one does, with its exception. *)
Record batch : Type := mkBatch {
  item : float;
  fault : option (stage * exn)
}.

(** The outcome of the external call made at stage [s] for [input_dict]. *)
Definition call (input_dict : batch) (s : stage) : M torch unit :=
  match fault input_dict with
  | Some (s', e) => if stage_eqb s s' then raise e else ret tt
  | None => ret tt
  end.

(** [out_dict = net(input_dict)]; the event keeps the gradient mode the
    forward pass runs in. *)
Definition net_forward : M torch unit :=
  fun w =>
    (mkTorch (grad_enabled w) (history w ++ [TForward (grad_enabled w)])%list, Ok tt).

Definition when {S : Type} (c : bool) (m : M S unit) : M S unit :=
  if c then m else ret tt.

(** [p in s] on strings: [p] occurs in [s] as a substring. *)
Fixpoint py_str_startswith (p s : string) : bool :=
  match p, s with
  | EmptyString, _ => true
  | String _ _, EmptyString => false
  | String a p', String b s' => Ascii.eqb a b && py_str_startswith p' s'
  end.

Fixpoint py_str_in (p s : string) : bool :=
  py_str_startswith p s ||
  match s with
  | EmptyString => false
  | String _ s' => py_str_in p s'
  end.

(** [float(n)] for a length [n]: a length is below 2^63. *)
Definition float_of_len (n : nat) : float :=
  PrimFloat.of_uint63 (Uint63.of_Z (Z.of_nat n)).

(** [int(np.floor(x))]: the largest integer not above [x].  [int] raises
    ValueError on NaN and OverflowError on an infinity. *)
Definition py_int_floor (x : float) : result Z :=
  match Prim2SF x with
  | S754_nan => Raise ValueError
  | S754_infinity _ => Raise OverflowError
  | S754_zero _ => Ok 0%Z
  | S754_finite s m e => Ok (Z.shiftl (if s then Z.neg m else Z.pos m) e)
  end.

Module Trainer.

(** The body of the loop of [loss_pass] for batch number [i].  The running
    total starts as the integer [0]; from the first addition on it is a
    float. *)
Definition loss_pass_body (epoch : nat) (op : string) (total_epoch_loss : float)
    (i : nat) (input_dict : batch) : M torch float :=
  call input_dict Load ;;
  emit TZeroGrad ;; call input_dict ZeroGrad ;;
  net_forward ;; call input_dict Forward ;;
  call input_dict LossFunc ;;
  when (op =? "train")
    (emit TBackward ;; call input_dict Backward ;;
     emit TOptimStep ;; call input_dict Step) ;;
  call input_dict Item ;;
  let total_epoch_loss := (total_epoch_loss + item input_dict)%float in
  when (Nat.eqb (i mod 20) 0)
    (emit (TVisualize epoch) ;; call input_dict Visualize) ;;
  ret total_epoch_loss.

(** [for i, input_dict in enumerate(loader)], from index [i]. *)
Fixpoint loss_pass_loop (epoch : nat) (op : string) (loader : list batch)
    (i : nat) (total_epoch_loss : float) : M torch float :=
  match loader with
  | [] => ret total_epoch_loss
  | input_dict :: rest =>
      total' <- loss_pass_body epoch op total_epoch_loss i input_dict ;;
      loss_pass_loop epoch op rest (S i) total'
  end.

(** [loss_pass(net, loss_func, loader, epoch, optim, op)] *)
Definition loss_pass (loader : list batch) (epoch : nat) (op : string) : M torch float :=
  when (op =? "valid") (set_grad_enabled false) ;;
  total_epoch_loss <- loss_pass_loop epoch op loader 0 PrimFloat.zero ;;
  when (op =? "valid") (set_grad_enabled true) ;;
  ret total_epoch_loss.

(** One epoch of [TRAIN]: the two passes, the two comparisons against the
    best losses so far, the two scalars.  The loaders are indexed by the
    epoch, since the external network answers differently in each;
    [torch.save] and [add_scalar] are recorded as calls that return. *)
Definition TRAIN_epoch (train_dataloader valid_dataloader : nat -> list batch)
    (best : float * float) (epoch : nat) : M torch (float * float) :=
  let '(best_train_loss, best_valid_loss) := best in
  train_epoch_loss <- loss_pass (train_dataloader epoch) epoch "train" ;;
  valid_epoch_loss <- loss_pass (valid_dataloader epoch) epoch "valid" ;;
  best_train_loss <-
    (if best_gt best_train_loss train_epoch_loss then
       emit (TSave "best_train_model" epoch) ;; ret train_epoch_loss
     else ret best_train_loss) ;;
  best_valid_loss <-
    (if best_gt best_valid_loss valid_epoch_loss then
       emit (TSave "best_valid_model" epoch) ;; ret valid_epoch_loss
     else ret best_valid_loss) ;;
  emit (TAddScalar "Train Loss" train_epoch_loss epoch) ;;
  emit (TAddScalar "Valid Loss" valid_epoch_loss epoch) ;;
  ret (best_train_loss, best_valid_loss).

Fixpoint TRAIN_loop (train_dataloader valid_dataloader : nat -> list batch)
    (epochs : list nat) (best : float * float)
  : M torch (float * float) :=
  match epochs with
  | [] => ret best
  | epoch :: rest =>
      best' <- TRAIN_epoch train_dataloader valid_dataloader best epoch ;;
      TRAIN_loop train_dataloader valid_dataloader rest best'
  end.

(** [TRAIN(net, num_epochs, optim, loss_func, train_dataloader,
    valid_dataloader)]: the external [net], [optim] and [loss_func] show
    only through the history and the batch outcomes. *)
Definition TRAIN (num_epochs : Z) (train_dataloader valid_dataloader : nat -> list batch)
  : M torch unit :=
  let best_train_loss := PrimFloat.infinity in
  let best_valid_loss := PrimFloat.infinity in
  best <- TRAIN_loop train_dataloader valid_dataloader (py_range num_epochs)
            (best_train_loss, best_valid_loss) ;;
  emit (TLogTraining (fst best) (snd best)) ;;
  emit TClose.

(** [get_dataloaders(dataset, bs)], up to the two index lists handed to the
    samplers: [vsplit] is the configured fraction, [dset_size] is
    [len(dataset)], and [shuffle] is what [np.random.shuffle] does to the
    list of indices with the generator in its current state.  The product
    [vsplit * dset_size] is the product of two doubles. *)
Definition get_dataloaders (vsplit : float) (dset_size : nat)
    (shuffle : list nat -> list nat) : result (list nat * list nat) :=
  let idxs := seq 0 dset_size in
  (split <~ py_int_floor (vsplit * float_of_len dset_size)%float ;;
   let idxs := shuffle idxs in
   let train_idxs := py_slice split None idxs in
   let val_idxs := py_slice 0 (Some split) idxs in
   Ok (train_idxs, val_idxs))%result.

(** [hasLinear(net)] over the names [net.named_modules()] yields: true at the
    first name that contains "fc". *)
Fixpoint hasLinear (named_modules : list string) : bool :=
  match named_modules with
  | [] => false
  | m :: rest => if py_str_in "fc" m then true else hasLinear rest
  end.

End Trainer.

(** * Vocabulary of the properties *)

(** ** Observers of a training history *)

Definition forward_modes (h : list train_event) : list bool :=
  flat_map (fun e => match e with TForward g => [g] | _ => [] end) h.

Definition optim_steps (h : list train_event) : list train_event :=
  filter (fun e => match e with TOptimStep => true | _ => false end) h.

(** The epochs at which the checkpoint [name] was written, oldest first. *)
Definition saved_epochs (name : string) (h : list train_event) : list nat :=
  flat_map (fun e => match e with
                     | TSave n k => if n =? name then [k] else []
                     | _ => []
                     end) h.

(** ** [Trainer.loss_pass] as a history of calls *)

(** Whether turn [i] of a pass in mode [op] makes the call of stage [s]. *)
Definition reached (op : string) (i : nat) (s : stage) : bool :=
  match s with
  | Backward | Step => op =? "train"
  | Visualize => Nat.eqb (i mod 20) 0
  | _ => true
  end.

(** The exception turn [i] ends with, if it raises: the fault of the batch,
    when the turn makes the call it sits in. *)
Definition turn_raise (op : string) (i : nat) (b : batch) : option exn :=
  match fault b with
  | Some (s, e) => if reached op i s then Some e else None
  | None => None
  end.

(** The calls of a turn that goes through. *)
Definition body_events (g : bool) (epoch : nat) (op : string) (i : nat) : list train_event :=
  ([TZeroGrad; TForward g]
   ++ (if op =? "train" then [TBackward; TOptimStep] else [])
   ++ (if Nat.eqb (i mod 20) 0 then [TVisualize epoch] else []))%list.

(** The calls of a turn up to the call of stage [s], that one included. *)
Definition events_upto (g : bool) (epoch : nat) (op : string) (i : nat) (s : stage)
  : list train_event :=
  match s with
  | Load => []
  | ZeroGrad => [TZeroGrad]
  | Forward | LossFunc => [TZeroGrad; TForward g]
  | Backward => [TZeroGrad; TForward g; TBackward]
  | Step => [TZeroGrad; TForward g; TBackward; TOptimStep]
  | Item => ([TZeroGrad; TForward g]
             ++ (if op =? "train" then [TBackward; TOptimStep] else []))%list
  | Visualize => body_events g epoch op i
  end.

(** The calls of turn [i] on batch [b]. *)
Definition turn_events (g : bool) (epoch : nat) (op : string) (i : nat) (b : batch)
  : list train_event :=
  match fault b with
  | Some (s, _) =>
      if reached op i s then events_upto g epoch op i s else body_events g epoch op i
  | None => body_events g epoch op i
  end.

(** The calls of the whole loop: it stops at the first turn that raises. *)
Fixpoint loop_events (g : bool) (epoch : nat) (op : string) (loader : list batch) (i : nat)
  : list train_event :=
  match loader with
  | [] => []
  | b :: rest =>
      (turn_events g epoch op i b
       ++ match turn_raise op i b with
          | Some _ => []
          | None => loop_events g epoch op rest (S i)
          end)%list
  end.

(** What the loop returns from turn [i] on, with the running total [total]. *)
Fixpoint loop_result (op : string) (loader : list batch) (i : nat) (total : float)
  : result float :=
  match loader with
  | [] => Ok total
  | b :: rest =>
      match turn_raise op i b with
      | Some e => Raise e
      | None => loop_result op rest (S i) (total + item b)%float
      end
  end.

(** ** Epoch losses and running minima *)

(** Whether every turn of a pass in mode [op] goes through, and the loss the
    pass then returns: the batch losses added up from 0, in loader order,
    each sum rounded as a double. *)
Fixpoint no_raise_from (op : string) (i : nat) (loader : list batch) : bool :=
  match loader with
  | [] => true
  | b :: rest =>
      match turn_raise op i b with
      | Some _ => false
      | None => no_raise_from op (S i) rest
      end
  end.

Definition no_raise (op : string) (loader : list batch) : bool :=
  no_raise_from op 0 loader.

Definition pass_total (loader : list batch) : float :=
  fold_left PrimFloat.add (map item loader) PrimFloat.zero.

(** Epoch [k] sets a new minimum of [L]: [L k] is below [+inf] (so it is
    neither NaN nor [+inf]) and no earlier epoch has a loss that is less
    than or equal to it (an earlier NaN is neither). *)
Definition new_minimum (L : nat -> float) (k : nat) : bool :=
  (L k <? infinity)%float && forallb (fun j => negb (L j <=? L k)%float) (seq 0 k).

(** The best loss after an epoch whose loss is [loss]. *)
Definition next_best (best loss : float) : float :=
  if best_gt best loss then loss else best.

Definition save_if (best loss : float) (epoch : nat) : list nat :=
  if best_gt best loss then [epoch] else [].

(** The epochs at which a checkpoint is written, from the best loss [best]
    on, over the epochs [es] with losses [L]. *)
Fixpoint saves_from (L : nat -> float) (best : float) (es : list nat) : list nat :=
  match es with
  | [] => []
  | e :: rest => (save_if best (L e) e ++ saves_from L (next_best best (L e)) rest)%list
  end.

(** The best loss so far, before epoch [a]: [+inf], or the loss of an earlier
    epoch that is below [+inf] (so not NaN); and no earlier epoch has a loss
    below it. *)
Definition best_before (L : nat -> float) (a : nat) (best : float) : Prop :=
  (best = infinity \/
   exists j, (j < a)%nat /\ best = L j /\ (L j <? infinity)%float = true) /\
  forall j, (j < a)%nat -> (L j <? best)%float = false.

(** What the comparison [best > x] amounts to before epoch [a], for every
    float [x]. *)
Definition tracks_minimum (L : nat -> float) (a : nat) (best : float) : Prop :=
  (best = infinity \/
   exists j, (j < a)%nat /\ best = L j /\ (L j <? infinity)%float = true) /\
  forall x, (x <? best)%float = true <->
            (x <? infinity)%float = true /\
            forall j, (j < a)%nat -> (L j <=? x)%float = false.

(** Neither NaN nor an infinity. *)
Definition is_number (x : float) : bool :=
  match Prim2SF x with
  | S754_nan | S754_infinity _ => false
  | _ => true
  end.

(** ** A chain of registry operations *)

(** The partials of the registry applied in order, each to the dict the one
    before it returned: the chain the docstring of [Data_Utils.apply_flist]
    describes. *)
Fixpoint apply_chain (flist : list json_func) (d : pydict) : result pydict :=
  match flist with
  | [] => Ok d
  | jf :: rest =>
      (partial_func <~ Data_Utils.get_partial_func jf ;;
       d' <~ partial_func d ;;
       apply_chain rest d')%result
  end.

(** The rows a dropped record can carry: the Series with a zero angle that
    [flipNonZero] saw, or the bare number a label transform made of it. *)
Definition dropped_row (r : option rowval) : bool :=
  match r with
  | Some (Series cells) =>
      match nth_error cells 1 with
      | Some v => py_eq_zero v
      | None => false
      end
  | Some (Scalar (VStr _)) => false
  | Some (Scalar _) => true
  | None => false
  end.

(** ** The operation registry *)

(** The names [Data_Utils.get_partial_func] resolves. *)
Definition operation_names : list string :=
  ["cropVertical"; "rad2deg"; "radOffset"; "rot90"; "flipNonZero"].

(** ** More observers of a training history *)

(** The number of turns at the head of a pass that go through. *)
Fixpoint ok_prefix_from (op : string) (i : nat) (loader : list batch) : nat :=
  match loader with
  | [] => 0
  | b :: rest =>
      match turn_raise op i b with
      | Some _ => 0
      | None => S (ok_prefix_from op (S i) rest)
      end
  end.

Definition ok_prefix (op : string) (loader : list batch) : nat :=
  ok_prefix_from op 0 loader.

Definition zero_grads (h : list train_event) : list train_event :=
  filter (fun e => match e with TZeroGrad => true | _ => false end) h.

Definition backward_calls (h : list train_event) : list train_event :=
  filter (fun e => match e with TBackward => true | _ => false end) h.

(** The [global_step] of every [visualize_batch] call, oldest first. *)
Definition visualize_steps (h : list train_event) : list nat :=
  flat_map (fun e => match e with TVisualize k => [k] | _ => [] end) h.

(** The [add_scalar] calls, oldest first. *)
Definition scalars (h : list train_event) : list (string * float * nat) :=
  flat_map (fun e => match e with TAddScalar t v k => [(t, v, k)] | _ => [] end) h.

(** The calls that end a run: [log_training] and [close]. *)
Definition closings (h : list train_event) : list train_event :=
  filter (fun e => match e with TLogTraining _ _ | TClose => true | _ => false end) h.

(** The best loss after the epochs [es], from [best] on. *)
Definition final_best (L : nat -> float) (es : list nat) (best : float) : float :=
  fold_left (fun b e => next_best b (L e)) es best.

(** The calls of one whole epoch in which no turn raises, entered with the
    gradient switch at [g] and the best losses [bt] and [bv]. *)
Definition epoch_events (tr va : nat -> list batch) (bt bv : float) (e : nat)
    (g : bool) : list train_event :=
  (loop_events g e "train" (tr e) 0
   ++ loop_events false e "valid" (va e) 0
   ++ (if best_gt bt (pass_total (tr e)) then [TSave "best_train_model" e] else [])
   ++ (if best_gt bv (pass_total (va e)) then [TSave "best_valid_model" e] else [])
   ++ [TAddScalar "Train Loss" (pass_total (tr e)) e;
       TAddScalar "Valid Loss" (pass_total (va e)) e])%list.

(** ** What a computation does to the files *)

(** A computation that leaves the index files and the image files alone. *)
Definition keeps_files {A : Type} (m : M fs A) : Prop :=
  forall w, csv_files (fst (m w)) = csv_files w /\ img_files (fst (m w)) = img_files w.

(** A computation that writes no image, leaves the index files alone when
    it raises, and adds one index file when it returns. *)
Definition index_written_last {A : Type} (m : M fs A) : Prop :=
  forall w,
    img_files (fst (m w)) = img_files w /\
    match snd (m w) with
    | Ok _ => exists p df, csv_files (fst (m w)) = (p, df) :: csv_files w
    | Raise _ => csv_files (fst (m w)) = csv_files w
    end.

(** The world once [MOVE] has made sure of the destination root and has
    asked for the source index [csvpath]. *)
Definition after_setup (dest_datadir csvpath : string) (w : fs) : fs :=
  let there := has_key dest_datadir (dirs w) || has_key dest_datadir (csv_files w)
               || has_key dest_datadir (img_files w) in
  mkFs (if there then dirs w else (dest_datadir, []) :: dirs w)
       (csv_files w) (img_files w)
       (calls w ++ (if there then [] else [IoMakedirs dest_datadir])
        ++ [IoReadCsv csvpath])%list.

(** ** Reading a decimal string back *)

Definition digit_value (c : ascii) : nat := nat_of_ascii c - 48.

Fixpoint int_of_str_from (s : string) (acc : nat) : nat :=
  match s with
  | EmptyString => acc
  | String c t => int_of_str_from t (10 * acc + digit_value c)
  end.

(** [int(s)] for a string of decimal digits. *)
Definition int_of_str (s : string) : nat := int_of_str_from s 0.

(** ** Sample data of the closed examples *)

Definition sample_img : image := [[[10; 20; 30]; [40; 50; 60]]]%Z.

Definition sample_dict : pydict :=
  mkDict (Some sample_img) (Some (Series [VStr "a.png"; VNum (1 # 2)])) None None.

Definition sample_index : dataframe :=
  mkDf ["image"; "angle"]
    [ [VStr "a.png"; VNum 0]; [VStr "b.png"; VNum (1 # 5)]; [VStr "c.png"; VNum (-1 # 10)] ].

Definition empty_index : dataframe := mkDf ["image"; "angle"] [].

(** Source folder [/data/run] holding [index], destination folder [/out/run]. *)
Definition sample_fs (index : dataframe) : fs :=
  mkFs [("/data", ["run"]); ("/data/run", ["data.csv"; "a.png"]); ("/out", ["run"]);
        ("/out/run", [])]
       [("/data/run/data.csv", index)]
       [("/data/run/a.png", sample_img)]
       [].

(** A batch that goes through with the loss [x]. *)
Definition good (x : float) : batch := mkBatch x None.

(** Loaders of three epochs.  The train losses are 0.1 + 0.2 + 0.3, then the
    same three numbers added in the other order (which as doubles is a
    smaller sum), then 0.6 again; the validation losses are 1, 0.5, 0.5. *)
Definition sample_train_loader (e : nat) : list batch :=
  match e with
  | 0%nat => [good 0.1; good 0.2; good 0.3]
  | 1%nat => [good 0.3; good 0.2; good 0.1]
  | _ => [good 0.6]
  end.

Definition sample_valid_loader (e : nat) : list batch :=
  match e with
  | 0%nat => [good 1]
  | _ => [good 0.5]
  end.

(** Loaders of two epochs whose first epoch diverges: the train loss is NaN
    and the validation loss [+inf] at epoch 0, both are 1 at epoch 1. *)
Definition diverging_train_loader (e : nat) : list batch :=
  match e with
  | 0%nat => [good nan]
  | _ => [good 1]
  end.

Definition diverging_valid_loader (e : nat) : list batch :=
  match e with
  | 0%nat => [good infinity]
  | _ => [good 1]
  end.

(** * Properties *)

(** ** The transform executor *)

Lemma get_partial_func_cases (jf : json_func) :
  (exists f, Data_Utils.get_partial_func jf = Ok f) \/
  Data_Utils.get_partial_func jf = Raise (Exception "{fname} is not in the list of functions").
Proof.
  unfold Data_Utils.get_partial_func.
  repeat match goal with
         | |- context [if ?b then _ else _] => destruct b; [left; eexists; reflexivity | ]
         end.
  right; reflexivity.
Qed.

(** C1 (as the code has it).  [Data_Utils.apply_flist] never hands a dict back: whatever
    the record and the operation list, it returns Python's [None], or raises
    the unknown-operation exception; and its outcome does not depend on the
    record, since no operation is ever called on it. *)
Theorem apply_flist_returns_no_dict (src_dict other_dict : pydict) (flist : list json_func) :
  (Data_Utils.apply_flist src_dict flist = Ok None \/
   Data_Utils.apply_flist src_dict flist =
     Raise (Exception "{fname} is not in the list of functions")) /\
  Data_Utils.apply_flist src_dict flist = Data_Utils.apply_flist other_dict flist.
Proof.
  induction flist as [|jf rest IH]; simpl.
  - split; [left|]; reflexivity.
  - destruct (get_partial_func_cases jf) as [[f Hf] | Hf]; rewrite Hf; simpl.
    + exact IH.
    + split; [right|]; reflexivity.
Qed.

(** The record an in-order application of [flipNonZero] would give, and what
    [Data_Utils.apply_flist] returns for the same one-step pipeline. *)
Example apply_flist_flip_sample :
  flipNonZero [] sample_dict =
    Ok (mkDict (Some [[[40; 50; 60]; [10; 20; 30]]]%Z)
               (Some (Series [VStr "a.png"; VNum (-1 # 2)])) (Some true) None) /\
  Data_Utils.apply_flist sample_dict [mkFunc "flipNonZero" []] = Ok None.
Proof. split; reflexivity. Qed.

(** ** The entry assertion of [Data_Utils.MOVE] *)

(** C2 (as the code has it).  The assertion at the entry of [Data_Utils.MOVE] demands
    [op == 'aug'] together with different roots: every move-mode call is
    rejected there, and so is every augment-mode call whose two roots are
    the same, the world being left untouched. *)
Theorem MOVE_entry_assertion (src_datadir folder dest_datadir : string)
    (flist : list json_func) (maxlen : Z) (w : fs) :
  Data_Utils.MOVE src_datadir folder dest_datadir flist maxlen "mv" w =
    (w, Raise (AssertionError "MOVE Error: If op=mv, src_datadir = dest_datadir")) /\
  Data_Utils.MOVE src_datadir folder src_datadir flist maxlen "aug" w =
    (w, Raise (AssertionError "MOVE Error: If op=aug, src_datadir = dest_datadir")).
Proof.
  split; unfold Data_Utils.MOVE, Data_Utils.MOVE_entry_check, bind, lift.
  - reflexivity.
  - rewrite (String.eqb_refl src_datadir). reflexivity.
Qed.

(** ** The row bound of the walk *)

Lemma py_range_length (n : Z) : List.length (py_range n) = Z.to_nat n.
Proof. unfold py_range. apply length_seq. Qed.

(** C3 (as the code has it).  The walk visits the indices below
    [max(len(src_df), maxlen)]: a limit under the row count changes nothing,
    a limit over it adds indices past the last row.  The default limit -1
    gives every row; on the three-row index the limit 2 still gives the
    indices 0, 1, 2. *)
Theorem MOVE_indices_max (src_df : dataframe) (maxlen : Z) :
  Data_Utils.MOVE_indices src_df maxlen
    = seq 0 (Nat.max (df_len src_df) (Z.to_nat maxlen)) /\
  Data_Utils.MOVE_indices src_df (-1) = seq 0 (df_len src_df) /\
  Data_Utils.MOVE_indices sample_index 2 = [0; 1; 2]%nat.
Proof.
  assert (H : forall m, Data_Utils.MOVE_indices src_df m
                        = seq 0 (Nat.max (df_len src_df) (Z.to_nat m))).
  { intro m. unfold Data_Utils.MOVE_indices, Data_Utils.MOVE_bound, py_range. f_equal.
    destruct (Z.max_spec (Z.of_nat (df_len src_df)) m) as [[Hlt ->] | [Hle ->]].
    - lia.
    - rewrite Nat2Z.id. lia. }
  split; [apply H |]. split; [| reflexivity].
  rewrite H. change (Z.to_nat (-1)) with 0%nat. now rewrite Nat.max_0_r.
Qed.

(** ** The consolidated index *)

(** C4 (counterexample).  One source row [a.png], one accepted row [b.png]:
    the augmented index starts with the accepted row, not the source row. *)
Lemma get_finaldf_aug_source_not_first :
  let src_df := mkDf ["image"; "angle"] [[VStr "a.png"; VNum (1 # 10)]] in
  let dest_df := mkDf ["image"; "angle"] [[VStr "b.png"; VNum (1 # 5)]] in
  rows (Data_Utils.get_finaldf src_df dest_df "aug") =
    [[VStr "b.png"; VNum (1 # 5)]; [VStr "a.png"; VNum (1 # 10)]] /\
  firstn (df_len src_df) (rows (Data_Utils.get_finaldf src_df dest_df "aug")) <> rows src_df.
Proof.
  split.
  - reflexivity.
  - simpl. intro H. inversion H.
Qed.

(** C4 (amended).  In augment mode the consolidated index has the M accepted
    rows first, in acceptance order, and the N rows of the source index after
    them, in their original order: N + M rows in all. *)
Theorem get_finaldf_aug_rows (src_df dest_df : dataframe) :
  let final_df := Data_Utils.get_finaldf src_df dest_df "aug" in
  df_len final_df = (df_len src_df + df_len dest_df)%nat /\
  firstn (df_len dest_df) (rows final_df) = rows dest_df /\
  skipn (df_len dest_df) (rows final_df) = rows src_df.
Proof.
  unfold Data_Utils.get_finaldf, df_append, df_len; simpl.
  repeat split.
  - rewrite length_app. apply Nat.add_comm.
  - rewrite firstn_app, Nat.sub_diag, firstn_all. simpl. apply app_nil_r.
  - rewrite skipn_app, Nat.sub_diag, skipn_all. reflexivity.
Qed.

(** ** The label transforms *)

(** C5 (as the code has it).  [radOffset] and [rad2deg] compute the new angle
    from cell 1 and then store it under the key "row" itself: the Series is
    replaced by a bare number, the file name of cell 0 and every other label
    field are gone, and reading cell 0 afterwards fails. *)
Theorem radOffset_rad2deg_replace_row (im : option image) (fname : string) (a offset : Q)
    (others : list value) (fl : option bool) (nm : option value) :
  let d := mkDict im (Some (Series (VStr fname :: VNum a :: others))) fl nm in
  radOffset [VNum offset] d = Ok (mkDict im (Some (Scalar (VNum (a + offset)))) fl nm) /\
  rad2deg [] d = Ok (mkDict im (Some (Scalar (VNum (a * 180 / math_pi)))) fl nm) /\
  row_getitem (Some (Scalar (VNum (a + offset)))) 0 = Raise TypeError.
Proof.
  intro d. unfold radOffset, rad2deg, d, set_row. simpl.
  repeat split.
Qed.

(** ** [flipNonZero] *)

Lemma list_set_length {A : Type} (i : nat) (x : A) (l : list A) :
  List.length (list_set i x l) = List.length l.
Proof.
  revert i; induction l as [|h t IH]; intros [|i]; simpl; auto.
Qed.

Lemma list_set_nth_error {A : Type} (i : nat) (x : A) (l : list A) :
  (i < List.length l)%nat -> nth_error (list_set i x l) i = Some x.
Proof.
  revert i; induction l as [|h t IH]; intros [|i] Hi; simpl in *; try lia.
  - reflexivity.
  - apply IH. lia.
Qed.

Lemma list_set_twice {A : Type} (i : nat) (x y : A) (l : list A) :
  list_set i y (list_set i x l) = list_set i y l.
Proof.
  revert i; induction l as [|h t IH]; intros [|i]; simpl; try reflexivity.
  now rewrite IH.
Qed.

Lemma list_set_same {A : Type} (i : nat) (x : A) (l : list A) :
  nth_error l i = Some x -> list_set i x l = l.
Proof.
  revert i; induction l as [|h t IH]; intros [|i] Hx; simpl in *; try discriminate.
  - now inversion Hx.
  - now rewrite IH.
Qed.

Lemma nth_error_in_range {A : Type} (i : nat) (x : A) (l : list A) :
  nth_error l i = Some x -> (i < List.length l)%nat.
Proof.
  intro Hx. apply nth_error_Some. now rewrite Hx.
Qed.

(** Mirroring an image twice gives the image back. *)
Lemma flip_h_involutive (im : image) :
  map (@rev pixel) (map (@rev pixel) im) = im.
Proof.
  induction im as [|r t IH]; simpl.
  - reflexivity.
  - now rewrite rev_involutive, IH.
Qed.

(** [-1.0 * (-1.0 * a)] is [a], numerator and denominator included. *)
Lemma neg_one_mul_twice (a : Q) : (-1 * (-1 * a))%Q = a.
Proof.
  destruct a as [n d]. destruct n; reflexivity.
Qed.

Lemma neg_one_mul_nonzero (a : Q) :
  ~ (a == 0)%Q -> Qeq_bool (-1 * a) 0 = false.
Proof.
  intro Ha. destruct (Qeq_bool (-1 * a) 0) eqn:E; [| reflexivity].
  apply Qeq_bool_iff in E. exfalso. apply Ha.
  assert (H : (a == -1 * (-1 * a))%Q) by (rewrite neg_one_mul_twice; reflexivity).
  rewrite H, E. reflexivity.
Qed.

Lemma nonzero_Qeq_bool (a : Q) : ~ (a == 0)%Q -> Qeq_bool a 0 = false.
Proof.
  intro Ha. destruct (Qeq_bool a 0) eqn:E; [| reflexivity].
  apply Qeq_bool_iff in E. contradiction.
Qed.

(** What [flipNonZero] returns on a record with an image and a non-zero
    angle in cell 1, whatever its flag was. *)
Lemma flipNonZero_nonzero (im : image) (cells : list value) (prior : option bool)
    (nm : option value) (v : value) (a : Q) :
  nth_error cells 1 = Some v ->
  py_num v = Some a ->
  ~ (a == 0)%Q ->
  flipNonZero [] (mkDict (Some im) (Some (Series cells)) prior nm) =
    Ok (mkDict (Some (map (@rev pixel) im))
               (Some (Series (list_set 1 (VNum (-1 * a)) cells))) (Some true) nm).
Proof.
  intros Hv Ha Hnz.
  unfold flipNonZero, row_getitem, list_getitem.
  cbn -[nth_error list_set Qeq_bool Qmult map Nat.ltb]. rewrite Hv.
  cbn -[nth_error list_set Qeq_bool Qmult map Nat.ltb].
  unfold py_eq_zero, py_float_mul. rewrite Ha, (nonzero_Qeq_bool a Hnz).
  cbn -[nth_error list_set Qeq_bool Qmult map Nat.ltb].
  apply nth_error_in_range in Hv. apply Nat.ltb_lt in Hv. rewrite Hv.
  reflexivity.
Qed.



(** *** The flag along a chain of operations *)

Lemma dropped_row_of_zero (r : option rowval) (angle : value) :
  row_getitem r 1 = Ok angle -> py_eq_zero angle = true -> dropped_row r = true.
Proof.
  destruct r as [[cells | [s | z | q]] |]; cbn [row_getitem dropped_row];
    try discriminate.
  - unfold list_getitem. destruct (nth_error cells 1); [| discriminate].
    now intros [= ->].
  - destruct (String.get 1 s); [| discriminate]. intros [= <-]. discriminate.
Qed.

(** The angle a transform reads off a dropped record: the zero of the
    Series, or nothing at all once the row is a bare number. *)
Lemma dropped_row_getitem (r : option rowval) :
  dropped_row r = true ->
  (exists cells v, r = Some (Series cells) /\ row_getitem r 1 = Ok v /\
                   py_eq_zero v = true) \/
  (exists v, r = Some (Scalar v) /\ dropped_row r = true /\
             row_getitem r 1 = Raise TypeError).
Proof.
  destruct r as [[cells | [s | z | q]] |]; cbn [dropped_row]; try discriminate.
  - unfold row_getitem, list_getitem.
    destruct (nth_error cells 1) as [v |]; [| discriminate].
    intro Hz. left. now exists cells, v.
  - intros _. right. now exists (VInt z).
  - intros _. right. now exists (VNum q).
Qed.

Lemma py_eq_zero_numeric (v : value) :
  py_eq_zero v = true -> exists q, py_num v = Some q.
Proof.
  unfold py_eq_zero. destruct (py_num v) as [q |]; [now exists q | discriminate].
Qed.

(** Take a returned transform apart along the calls it made. *)
Ltac crack H :=
  repeat match type of H with
         | context [match ?x with _ => _ end] => destruct x eqn:?; try discriminate
         end.

Lemma cropVertical_keeps_dropped (args : list value) (d d' : pydict) :
  cropVertical args d = Ok d' -> flag d' = flag d /\ row d' = row d.
Proof.
  unfold cropVertical, py_assert, rbind. intro H. crack H;
    injection H as <-; split; reflexivity.
Qed.

Lemma rot90_keeps_dropped (args : list value) (d d' : pydict) :
  rot90 args d = Ok d' -> flag d' = flag d /\ row d' = row d.
Proof.
  unfold rot90, py_assert, rbind. intro H. crack H;
    injection H as <-; split; reflexivity.
Qed.

Lemma radOffset_keeps_dropped (args : list value) (d d' : pydict) :
  radOffset args d = Ok d' -> dropped_row (row d) = true ->
  flag d' = flag d /\ dropped_row (row d') = true.
Proof.
  intros H Hd. unfold radOffset, py_assert in H. cbv zeta in H.
  destruct (dropped_row_getitem _ Hd) as [(cells & v & _ & Hv & Hz) | (v & _ & _ & Hv)];
    rewrite Hv in H; unfold rbind in H.
  - destruct (py_eq_zero_numeric v Hz) as [q Hq].
    crack H; injection H as <-; split; try reflexivity;
      destruct v; try discriminate;
      match goal with
      | E : py_add _ ?o = Ok _ |- _ => destruct o; cbn in E; try discriminate;
                                       injection E as <-; reflexivity
      end.
  - crack H.
Qed.

Lemma rad2deg_keeps_dropped (args : list value) (d d' : pydict) :
  rad2deg args d = Ok d' -> dropped_row (row d) = true ->
  flag d' = flag d /\ dropped_row (row d') = true.
Proof.
  intros H Hd. unfold rad2deg, py_assert, py_mul_float, py_div_float in H. cbv zeta in H.
  destruct (dropped_row_getitem _ Hd) as [(cells & v & _ & Hv & Hz) | (v & _ & _ & Hv)];
    rewrite Hv in H; unfold rbind in H.
  - destruct (py_eq_zero_numeric v Hz) as [q Hq]. rewrite Hq in H. cbn [py_num] in H.
    crack H; injection H as <-; split; reflexivity.
  - crack H.
Qed.

Lemma flipNonZero_keeps_dropped (args : list value) (d d' : pydict) :
  flipNonZero args d = Ok d' -> dropped_row (row d) = true ->
  flag d' = Some false /\ dropped_row (row d') = true.
Proof.
  intros H Hd. unfold flipNonZero, py_assert in H. cbv zeta in H.
  destruct (dropped_row_getitem _ Hd) as [(cells & v & _ & Hv & Hz) | (v & _ & _ & Hv)];
    rewrite Hv in H; unfold rbind in H.
  - rewrite Hz in H. crack H. injection H as <-. split; [reflexivity | exact Hd].
  - crack H.
Qed.

Lemma partial_keeps_dropped (jf : json_func) (f : pydict -> result pydict)
    (d d' : pydict) :
  Data_Utils.get_partial_func jf = Ok f -> f d = Ok d' ->
  flag d = Some false -> dropped_row (row d) = true ->
  flag d' = Some false /\ dropped_row (row d') = true.
Proof.
  unfold Data_Utils.get_partial_func, partial. cbv zeta.
  intros Hf Hrun Hflag Hd.
  destruct (F jf =? "cropVertical");
    [injection Hf as <-; destruct (cropVertical_keeps_dropped _ _ _ Hrun) as [-> ->];
     now split |].
  destruct (F jf =? "rad2deg");
    [injection Hf as <-; destruct (rad2deg_keeps_dropped _ _ _ Hrun Hd) as [-> ?];
     now split |].
  destruct (F jf =? "radOffset");
    [injection Hf as <-; destruct (radOffset_keeps_dropped _ _ _ Hrun Hd) as [-> ?];
     now split |].
  destruct (F jf =? "rot90");
    [injection Hf as <-; destruct (rot90_keeps_dropped _ _ _ Hrun) as [-> ->];
     now split |].
  destruct (F jf =? "flipNonZero"); [| discriminate].
  injection Hf as <-. exact (flipNonZero_keeps_dropped _ _ _ Hrun Hd).
Qed.

Lemma apply_chain_keeps_dropped (flist : list json_func) :
  forall d d',
    apply_chain flist d = Ok d' ->
    flag d = Some false -> dropped_row (row d) = true ->
    flag d' = Some false /\ dropped_row (row d') = true.
Proof.
  induction flist as [|jf rest IH]; intros d d' H Hflag Hd; cbn [apply_chain] in H.
  - injection H as <-. now split.
  - unfold rbind in H.
    destruct (Data_Utils.get_partial_func jf) as [f |] eqn:Ef; [| discriminate].
    destruct (f d) as [d1 |] eqn:Erun; [| discriminate].
    destruct (partial_keeps_dropped jf f d d1 Ef Erun Hflag Hd) as [Hflag1 Hd1].
    exact (IH d1 d' H Hflag1 Hd1).
Qed.




(** ** Running the monad *)

Lemma bind_ok {S A B : Type} (m : M S A) (k : A -> M S B) (w w1 : S) (a : A) :
  m w = (w1, Ok a) -> bind m k w = k a w1.
Proof. intro H. unfold bind. now rewrite H. Qed.

Lemma bind_raise {S A B : Type} (m : M S A) (k : A -> M S B) (w w1 : S) (e : exn) :
  m w = (w1, Raise e) -> bind m k w = (w1, Raise e).
Proof. intro H. unfold bind. now rewrite H. Qed.

(** Step over a bind whose first computation is known to return, or to raise. *)
Tactic Notation "run_ok" uconstr(H) := rewrite (bind_ok _ _ _ _ _ H).
Tactic Notation "run_raise" uconstr(H) := rewrite (bind_raise _ _ _ _ _ H).

(** ** Running [Trainer.loss_pass] *)

(** Split a turn by the fault of its batch, the mode of the pass and the
    visualisation test. *)
Ltac turn_cases b op i :=
  destruct b as [? [[[] ?]|]];
  unfold turn_events, turn_raise, reached, events_upto, body_events;
  cbn [fault item];
  destruct (op =? "train"); destruct (Nat.eqb (i mod 20) 0).

Lemma loss_pass_body_run (epoch : nat) (op : string) (total : float) (i : nat) (b : batch)
    (w : torch) :
  Trainer.loss_pass_body epoch op total i b w =
    (mkTorch (grad_enabled w) (history w ++ turn_events (grad_enabled w) epoch op i b)%list,
     match turn_raise op i b with
     | Some e => Raise e
     | None => Ok (total + item b)%float
     end).
Proof.
  destruct w as [g h].
  unfold Trainer.loss_pass_body, bind, call, emit, net_forward, when, ret, raise.
  turn_cases b op i;
    cbn [fault item stage_eqb grad_enabled history];
    repeat rewrite <- app_assoc; try rewrite app_nil_r; reflexivity.
Qed.

Lemma loss_pass_loop_run (epoch : nat) (op : string) (loader : list batch) :
  forall (i : nat) (total : float) (w : torch),
    Trainer.loss_pass_loop epoch op loader i total w =
      (mkTorch (grad_enabled w)
         (history w ++ loop_events (grad_enabled w) epoch op loader i)%list,
       loop_result op loader i total).
Proof.
  induction loader as [|b rest IH]; intros i total w;
    cbn [Trainer.loss_pass_loop loop_events loop_result].
  - unfold ret. rewrite app_nil_r. now destruct w.
  - pose proof (loss_pass_body_run epoch op total i b w) as Hb.
    destruct (turn_raise op i b) as [e |].
    + run_raise Hb. now rewrite app_nil_r.
    + run_ok Hb. rewrite IH. cbn [grad_enabled history]. now rewrite <- app_assoc.
Qed.

(** The whole of [Trainer.loss_pass]: the switch is put back only on the path that
    leaves the loop normally. *)
Lemma loss_pass_run (loader : list batch) (epoch : nat) (op : string) (w : torch) :
  Trainer.loss_pass loader epoch op w =
    let g := if op =? "valid" then false else grad_enabled w in
    let r := loop_result op loader 0 PrimFloat.zero in
    (mkTorch (match r with
              | Ok _ => if op =? "valid" then true else g
              | Raise _ => g
              end)
       (history w ++ loop_events g epoch op loader 0)%list, r).
Proof.
  unfold Trainer.loss_pass, when. cbv zeta.
  destruct (op =? "valid").
  - unfold bind at 1. unfold set_grad_enabled at 1.
    unfold bind at 1. rewrite loss_pass_loop_run. cbn [grad_enabled history].
    destruct (loop_result op loader 0 PrimFloat.zero); reflexivity.
  - unfold bind at 1. unfold ret at 1.
    unfold bind at 1. rewrite loss_pass_loop_run.
    destruct (loop_result op loader 0 PrimFloat.zero); cbn; [now destruct w | reflexivity].
Qed.

Lemma forward_modes_turn (g : bool) (epoch : nat) (op : string) (i : nat) (b : batch) :
  Forall (fun m => m = g) (forward_modes (turn_events g epoch op i b)).
Proof. turn_cases b op i; cbn; repeat constructor. Qed.

Lemma forward_modes_loop (g : bool) (epoch : nat) (op : string) (loader : list batch) :
  forall i, Forall (fun m => m = g) (forward_modes (loop_events g epoch op loader i)).
Proof.
  induction loader as [|b rest IH]; intro i; cbn [loop_events].
  - constructor.
  - unfold forward_modes. rewrite flat_map_app.
    apply Forall_app; split; [apply forward_modes_turn |].
    destruct (turn_raise op i b); [constructor | apply IH].
Qed.

Lemma optim_steps_turn (g : bool) (epoch : nat) (op : string) (i : nat) (b : batch) :
  (op =? "train") = false -> optim_steps (turn_events g epoch op i b) = [].
Proof. intro Hop. turn_cases b op i; try discriminate; reflexivity. Qed.

Lemma optim_steps_loop (g : bool) (epoch : nat) (op : string) (loader : list batch) :
  (op =? "train") = false ->
  forall i, optim_steps (loop_events g epoch op loader i) = [].
Proof.
  intros Hop. induction loader as [|b rest IH]; intro i; cbn [loop_events].
  - reflexivity.
  - unfold optim_steps. rewrite filter_app.
    fold (optim_steps (turn_events g epoch op i b)).
    rewrite (optim_steps_turn g epoch op i b Hop).
    destruct (turn_raise op i b); [reflexivity | apply IH].
Qed.

Lemma saved_epochs_app (name : string) (h1 h2 : list train_event) :
  saved_epochs name (h1 ++ h2) = (saved_epochs name h1 ++ saved_epochs name h2)%list.
Proof. apply flat_map_app. Qed.

Lemma saved_epochs_turn (name : string) (g : bool) (epoch : nat) (op : string) (i : nat)
    (b : batch) :
  saved_epochs name (turn_events g epoch op i b) = [].
Proof. turn_cases b op i; reflexivity. Qed.

Lemma saved_epochs_loop (name : string) (g : bool) (epoch : nat) (op : string)
    (loader : list batch) :
  forall i, saved_epochs name (loop_events g epoch op loader i) = [].
Proof.
  induction loader as [|b rest IH]; intro i; cbn [loop_events].
  - reflexivity.
  - rewrite saved_epochs_app, saved_epochs_turn.
    destruct (turn_raise op i b); [reflexivity | apply IH].
Qed.

(** C8 (counterexample).  A validation pass whose second batch raises in the
    forward pass ends with the exception and with gradient tracking still
    switched off. *)
Lemma loss_pass_valid_raise_leaves_grad_off :
  let run := Trainer.loss_pass
               [mkBatch 0.5 None;
                mkBatch 0.5 (Some (Forward, Exception "forward failed"));
                mkBatch 1 None] 0 "valid" (mkTorch true []) in
  snd run = Raise (Exception "forward failed") /\
  grad_enabled (fst run) = false /\
  history (fst run) =
    [TZeroGrad; TForward false; TVisualize 0; TZeroGrad; TForward false].
Proof.
  cbv zeta. split; [reflexivity | split; reflexivity].
Qed.

(** C8 (amended).  During a validation pass every forward pass runs with
    gradient tracking off and the optimizer is never stepped; when the pass
    returns its loss, gradient tracking is on again. *)
Theorem loss_pass_valid_grad (loader : list batch) (epoch : nat) (w : torch) :
  let run := Trainer.loss_pass loader epoch "valid" w in
  exists events,
    history (fst run) = (history w ++ events)%list /\
    Forall (fun m => m = false) (forward_modes events) /\
    optim_steps events = [] /\
    match snd run with
    | Ok _ => grad_enabled (fst run) = true
    | Raise _ => True
    end.
Proof.
  cbv zeta. rewrite loss_pass_run. cbv zeta. cbn [fst snd history grad_enabled].
  change ("valid" =? "valid") with true. cbv iota.
  exists (loop_events false epoch "valid" loader 0).
  split; [reflexivity |].
  split; [apply forward_modes_loop |].
  split; [now apply optim_steps_loop |].
  destruct (loop_result "valid" loader 0 PrimFloat.zero); [reflexivity | exact I].
Qed.

(** ** The order of the floats *)

Ltac sf_cases :=
  repeat match goal with
         | x : spec_float |- _ => destruct x as [[]|[]| |[] ? ?]
         end.

Ltac cmp_cases :=
  repeat match goal with
         | |- context [Z.compare ?a ?b] =>
             destruct (Z.compare_spec a b); try lia; subst
         | H : context [Z.compare ?a ?b] |- _ =>
             destruct (Z.compare_spec a b); try lia; subst
         | |- context [Pos.compare_cont Eq ?a ?b] =>
             change (Pos.compare_cont Eq a b) with (Pos.compare a b);
             destruct (Pos.compare_spec a b); try lia; subst
         | H : context [Pos.compare_cont Eq ?a ?b] |- _ =>
             change (Pos.compare_cont Eq a b) with (Pos.compare a b) in H;
             destruct (Pos.compare_spec a b); try lia; subst
         end.

Ltac sf_order :=
  unfold SFltb, SFleb; intros; sf_cases; cbn in *;
  try discriminate; try reflexivity;
  cmp_cases; cbn in *; try discriminate; try reflexivity; try lia.

Lemma SFltb_trans (x y z : spec_float) :
  SFltb x y = true -> SFltb y z = true -> SFltb x z = true.
Proof. sf_order. Qed.

Lemma SFleb_ltb_trans (x y z : spec_float) :
  SFleb x y = true -> SFltb y z = true -> SFltb x z = true.
Proof. sf_order. Qed.

Lemma SFltb_not_leb (x y : spec_float) : SFltb x y = true -> SFleb y x = false.
Proof. sf_order. Qed.

Lemma SFnot_leb_ltb (x y a b : spec_float) :
  SFltb x a = true -> SFltb y b = true -> SFleb y x = false -> SFltb x y = true.
Proof. sf_order. Qed.

Lemma SFltb_leb_refl (x y : spec_float) : SFltb x y = true -> SFleb x x = true.
Proof. sf_order. Qed.

Lemma float_ltb_trans (x y z : float) :
  (x <? y)%float = true -> (y <? z)%float = true -> (x <? z)%float = true.
Proof. rewrite !FloatAxioms.ltb_spec. apply SFltb_trans. Qed.

Lemma float_leb_ltb_trans (x y z : float) :
  (x <=? y)%float = true -> (y <? z)%float = true -> (x <? z)%float = true.
Proof. rewrite !FloatAxioms.ltb_spec, FloatAxioms.leb_spec. apply SFleb_ltb_trans. Qed.

Lemma float_ltb_not_leb (x y : float) :
  (x <? y)%float = true -> (y <=? x)%float = false.
Proof. rewrite FloatAxioms.ltb_spec, FloatAxioms.leb_spec. apply SFltb_not_leb. Qed.

(** Two floats that are not NaN (each is below something) compare one way or
    the other. *)
Lemma float_not_leb_ltb (x y a b : float) :
  (x <? a)%float = true -> (y <? b)%float = true ->
  (y <=? x)%float = false -> (x <? y)%float = true.
Proof. rewrite !FloatAxioms.ltb_spec, FloatAxioms.leb_spec. apply SFnot_leb_ltb. Qed.

Lemma float_ltb_leb_refl (x y : float) :
  (x <? y)%float = true -> (x <=? x)%float = true.
Proof. rewrite FloatAxioms.ltb_spec, FloatAxioms.leb_spec. apply SFltb_leb_refl. Qed.

(** ** The best-loss checkpoints of [Trainer.TRAIN] *)

Lemma loop_result_no_raise (op : string) (loader : list batch) :
  forall i total,
    no_raise_from op i loader = true ->
    loop_result op loader i total = Ok (fold_left PrimFloat.add (map item loader) total).
Proof.
  induction loader as [|b rest IH]; intros i total Hok;
    cbn [loop_result no_raise_from map fold_left] in *.
  - reflexivity.
  - destruct (turn_raise op i b); [discriminate |]. now apply IH.
Qed.

Lemma pass_no_raise (op : string) (loader : list batch) :
  no_raise op loader = true ->
  loop_result op loader 0 PrimFloat.zero = Ok (pass_total loader).
Proof. intro H. now apply loop_result_no_raise. Qed.

(** One epoch in which no turn raises. *)
Lemma TRAIN_epoch_run (tr va : nat -> list batch) (bt bv : float) (epoch : nat)
    (w : torch) :
  no_raise "train" (tr epoch) = true ->
  no_raise "valid" (va epoch) = true ->
  exists w',
    Trainer.TRAIN_epoch tr va (bt, bv) epoch w =
      (w', Ok (next_best bt (pass_total (tr epoch)), next_best bv (pass_total (va epoch)))) /\
    saved_epochs "best_train_model" (history w') =
      (saved_epochs "best_train_model" (history w)
       ++ save_if bt (pass_total (tr epoch)) epoch)%list /\
    saved_epochs "best_valid_model" (history w') =
      (saved_epochs "best_valid_model" (history w)
       ++ save_if bv (pass_total (va epoch)) epoch)%list.
Proof.
  intros Htr Hva.
  pose proof (pass_no_raise _ _ Htr) as Rt.
  pose proof (pass_no_raise _ _ Hva) as Rv.
  unfold Trainer.TRAIN_epoch, next_best, save_if.
  unfold bind at 1. rewrite loss_pass_run. cbv zeta. rewrite Rt.
  unfold bind at 1. rewrite loss_pass_run. cbv zeta. rewrite Rv.
  cbn [grad_enabled history].
  destruct (best_gt bt (pass_total (tr epoch))), (best_gt bv (pass_total (va epoch)));
    eexists; (split; [reflexivity |]);
    cbn [fst snd history grad_enabled];
    repeat rewrite saved_epochs_app; repeat rewrite saved_epochs_loop;
    cbn; repeat rewrite app_nil_r; split; reflexivity.
Qed.

Lemma TRAIN_loop_run (tr va : nat -> list batch) (es : list nat) :
  (forall e, In e es -> no_raise "train" (tr e) = true /\ no_raise "valid" (va e) = true) ->
  forall (bt bv : float) (w : torch),
  exists w' best',
    Trainer.TRAIN_loop tr va es (bt, bv) w = (w', Ok best') /\
    saved_epochs "best_train_model" (history w') =
      (saved_epochs "best_train_model" (history w)
       ++ saves_from (fun e => pass_total (tr e)) bt es)%list /\
    saved_epochs "best_valid_model" (history w') =
      (saved_epochs "best_valid_model" (history w)
       ++ saves_from (fun e => pass_total (va e)) bv es)%list.
Proof.
  induction es as [|e rest IH]; intros Hok bt bv w; cbn [Trainer.TRAIN_loop saves_from].
  - exists w, (bt, bv). repeat rewrite app_nil_r. repeat split.
  - destruct (Hok e (or_introl eq_refl)) as [Htr Hva].
    destruct (TRAIN_epoch_run tr va bt bv e w Htr Hva) as (w1 & Hrun & Ht & Hv).
    run_ok Hrun.
    destruct (IH (fun e' He' => Hok e' (or_intror He'))
                 (next_best bt (pass_total (tr e))) (next_best bv (pass_total (va e))) w1)
      as (w2 & best2 & Hloop & Ht2 & Hv2).
    exists w2, best2. split; [exact Hloop |].
    rewrite Ht2, Hv2, Ht, Hv. repeat rewrite <- app_assoc. split; reflexivity.
Qed.

(** *** Running minima of a sequence of losses *)

Section RunningMinimum.

Variable L : nat -> float.

Lemma new_minimum_spec (k : nat) :
  new_minimum L k = true <->
  (L k <? infinity)%float = true /\
  forall j, (j < k)%nat -> (L j <=? L k)%float = false.
Proof.
  unfold new_minimum. rewrite andb_true_iff, forallb_forall. split.
  - intros [H0 H]. split; [exact H0 |]. intros j Hj.
    apply negb_true_iff, H, in_seq. lia.
  - intros [H0 H]. split; [exact H0 |]. intros j Hj.
    apply negb_true_iff, H. apply in_seq in Hj. lia.
Qed.

(** When no loss so far is NaN or [+inf], a new minimum is a loss strictly
    below every earlier one. *)
Lemma new_minimum_regular (k : nat) :
  (forall j, (j <= k)%nat -> (L j <? infinity)%float = true) ->
  (new_minimum L k = true <-> forall j, (j < k)%nat -> (L k <? L j)%float = true).
Proof.
  intro Hreg. rewrite new_minimum_spec. split.
  - intros [Hk H] j Hj.
    apply (float_not_leb_ltb (L k) (L j) infinity infinity);
      [exact Hk | apply Hreg; lia | now apply H].
  - intro H. split; [apply Hreg; lia |].
    intros j Hj. apply float_ltb_not_leb. now apply H.
Qed.

Lemma tracks_minimum_start : tracks_minimum L 0 infinity.
Proof.
  split; [now left |]. intro x. split.
  - intro H. split; [exact H |]. intros j Hj. lia.
  - now intros [H _].
Qed.

(** Against the best loss so far, [best > loss] says that the epoch sets a
    new minimum. *)
Lemma best_gt_new_minimum (a : nat) (best : float) :
  tracks_minimum L a best -> best_gt best (L a) = new_minimum L a.
Proof.
  intros [_ Hb]. apply eq_iff_eq_true. unfold best_gt.
  rewrite new_minimum_spec. apply Hb.
Qed.

(** The update of the best loss keeps it the best loss so far. *)
Lemma tracks_minimum_next (a : nat) (best : float) :
  tracks_minimum L a best -> tracks_minimum L (S a) (next_best best (L a)).
Proof.
  intros [Hwho Hb]. unfold next_best, best_gt.
  destruct (L a <? best)%float eqn:E.
  - split.
    { right. exists a. split; [lia |]. split; [reflexivity |].
      exact (proj1 (proj1 (Hb (L a)) E)). }
    intro x. split.
    + intro Hx. pose proof (float_ltb_trans _ _ _ Hx E) as Hxb.
      apply Hb in Hxb. destruct Hxb as [Hinf Hall].
      split; [exact Hinf |]. intros j Hj.
      destruct (Nat.eq_dec j a) as [-> | Hne];
        [now apply float_ltb_not_leb | apply Hall; lia].
    + intros [Hinf Hall].
      apply (float_not_leb_ltb x (L a) infinity best);
        [exact Hinf | exact E | apply Hall; lia].
  - split.
    + destruct Hwho as [-> | (j & Hj & -> & Hfin)]; [now left |].
      right. exists j. split; [lia |]. split; [reflexivity | exact Hfin].
    + intro x. split.
      * intro Hx. destruct (proj1 (Hb x) Hx) as [Hinf Hall].
        split; [exact Hinf |]. intros j Hj.
        destruct (Nat.eq_dec j a) as [-> | Hne]; [| apply Hall; lia].
        destruct (L a <=? x)%float eqn:El; [| reflexivity].
        pose proof (float_leb_ltb_trans _ _ _ El Hx). congruence.
      * intros [Hinf Hall]. apply Hb. split; [exact Hinf |].
        intros j Hj. apply Hall. lia.
Qed.

Lemma tracks_minimum_best_before (a : nat) (best : float) :
  tracks_minimum L a best -> best_before L a best.
Proof.
  intros [Hwho Hb]. split; [exact Hwho |].
  intros j Hj. destruct (L j <? best)%float eqn:E; [| reflexivity].
  pose proof (float_ltb_leb_refl _ _ E) as Hr.
  destruct (proj1 (Hb (L j)) E) as [_ Hall].
  rewrite (Hall j Hj) in Hr. discriminate.
Qed.

Lemma saves_from_new_minimum (m : nat) :
  forall (a : nat) (best : float),
    tracks_minimum L a best ->
    saves_from L best (seq a m) = filter (new_minimum L) (seq a m).
Proof.
  induction m as [|m IH]; intros a best Hb; cbn [seq saves_from filter].
  - reflexivity.
  - rewrite (IH (S a) _ (tracks_minimum_next a best Hb)).
    unfold save_if. rewrite (best_gt_new_minimum a best Hb).
    destruct (new_minimum L a); reflexivity.
Qed.

End RunningMinimum.

(** C7 (amended).  In a run of [Trainer.TRAIN] whose passes all return their loss,
    starting from best losses of [+inf], [best_train_model] is written at
    exactly the epochs whose train loss is below [+inf] and has no earlier
    train loss less than or equal to it, once each and in epoch order; and
    likewise [best_valid_model] with the validation loss.  As long as no
    loss is NaN or [+inf], these are the epochs whose loss is strictly below
    the loss of every earlier epoch (an equal loss writes nothing). *)
Theorem TRAIN_saves_on_new_minimum (num_epochs : Z)
    (train_dataloader valid_dataloader : nat -> list batch) (w : torch) :
  (forall e, (e < Z.to_nat num_epochs)%nat ->
     no_raise "train" (train_dataloader e) = true /\
     no_raise "valid" (valid_dataloader e) = true) ->
  let train_loss := fun e => pass_total (train_dataloader e) in
  let valid_loss := fun e => pass_total (valid_dataloader e) in
  let run := Trainer.TRAIN num_epochs train_dataloader valid_dataloader w in
  snd run = Ok tt /\
  saved_epochs "best_train_model" (history (fst run)) =
    (saved_epochs "best_train_model" (history w)
     ++ filter (new_minimum train_loss) (py_range num_epochs))%list /\
  saved_epochs "best_valid_model" (history (fst run)) =
    (saved_epochs "best_valid_model" (history w)
     ++ filter (new_minimum valid_loss) (py_range num_epochs))%list /\
  forall (L : nat -> float) (k : nat),
    (forall j, (j <= k)%nat -> (L j <? infinity)%float = true) ->
    (new_minimum L k = true <-> forall j, (j < k)%nat -> (L k <? L j)%float = true).
Proof.
  intros Hok train_loss valid_loss run.
  assert (Hin : forall e, In e (py_range num_epochs) ->
            no_raise "train" (train_dataloader e) = true /\
            no_raise "valid" (valid_dataloader e) = true).
  { intros e He. apply Hok. unfold py_range in He. apply in_seq in He. lia. }
  destruct (TRAIN_loop_run train_dataloader valid_dataloader (py_range num_epochs) Hin
              infinity infinity w) as (w1 & best1 & Hloop & Ht & Hv).
  unfold py_range in Ht, Hv.
  rewrite (saves_from_new_minimum train_loss _ 0%nat infinity
             (tracks_minimum_start train_loss)) in Ht.
  rewrite (saves_from_new_minimum valid_loss _ 0%nat infinity
             (tracks_minimum_start valid_loss)) in Hv.
  subst run. unfold Trainer.TRAIN. cbv zeta.
  run_ok Hloop.
  unfold bind, emit. cbn [fst snd history grad_enabled].
  repeat rewrite saved_epochs_app. cbn [saved_epochs flat_map].
  repeat rewrite app_nil_r.
  split; [reflexivity |]. split; [assumption |]. split; [assumption |].
  exact new_minimum_regular.
Qed.

(** On the sample loaders the train checkpoint is written at epochs 0 and 1
    (the three batch losses of epoch 1 add up to less than the same three
    of epoch 0; the tie at epoch 2 writes nothing), the validation
    checkpoint at epochs 0 and 1. *)
Lemma TRAIN_saves_on_new_minimum_witness :
  let run := Trainer.TRAIN 3 sample_train_loader sample_valid_loader (mkTorch true []) in
  snd run = Ok tt /\
  saved_epochs "best_train_model" (history (fst run)) = [0; 1]%nat /\
  saved_epochs "best_valid_model" (history (fst run)) = [0; 1]%nat /\
  forall (L : nat -> float) (k : nat),
    (forall j, (j <= k)%nat -> (L j <? infinity)%float = true) ->
    (new_minimum L k = true <-> forall j, (j < k)%nat -> (L k <? L j)%float = true).
Proof.
  apply (TRAIN_saves_on_new_minimum 3 sample_train_loader sample_valid_loader
           (mkTorch true [])).
  intros e He.
  destruct e as [|[|[|e]]]; [split; reflexivity | split; reflexivity | split; reflexivity |].
  exfalso. change (Z.to_nat 3) with 3%nat in He. lia.
Defined.

(** C7 (counterexample).  A first epoch whose train loss is NaN and whose
    validation loss is [+inf] writes no checkpoint, although no earlier epoch
    has a lower loss; and epoch 1 writes both, although its loss 1 is not
    below the NaN of epoch 0. *)
Lemma TRAIN_diverged_epoch_not_saved :
  let run := Trainer.TRAIN 2 diverging_train_loader diverging_valid_loader
               (mkTorch true []) in
  snd run = Ok tt /\
  saved_epochs "best_train_model" (history (fst run)) = [1]%nat /\
  saved_epochs "best_valid_model" (history (fst run)) = [1]%nat /\
  (pass_total (diverging_train_loader 1) <? pass_total (diverging_train_loader 0))%float
    = false.
Proof.
  cbv zeta. repeat split.
Qed.

(** ** Unknown operation names in [Data_Utils.MOVE] *)

Lemma get_partial_func_unknown (jf : json_func) :
  ~ In (F jf) operation_names ->
  Data_Utils.get_partial_func jf = Raise (Exception "{fname} is not in the list of functions").
Proof.
  intro Hout. unfold Data_Utils.get_partial_func.
  repeat match goal with
         | |- context [if ?x =? ?y then _ else _] =>
             destruct (String.eqb_spec x y) as [Heq | _];
             [exfalso; apply Hout; rewrite Heq; simpl; tauto | ]
         end.
  reflexivity.
Qed.

Lemma get_partial_func_known (jf : json_func) :
  In (F jf) operation_names -> exists f, Data_Utils.get_partial_func jf = Ok f.
Proof.
  unfold operation_names, Data_Utils.get_partial_func.
  intros [H | [H | [H | [H | [H | []]]]]]; rewrite <- H; eexists; reflexivity.
Qed.

Lemma apply_flist_unknown (d : pydict) (flist : list json_func) :
  (exists jf, In jf flist /\ ~ In (F jf) operation_names) ->
  Data_Utils.apply_flist d flist = Raise (Exception "{fname} is not in the list of functions").
Proof.
  induction flist as [|jf0 rest IH]; intros (jf & Hin & Hout).
  - destruct Hin.
  - cbn [Data_Utils.apply_flist].
    destruct (get_partial_func_cases jf0) as [[f Hf] | Hf]; rewrite Hf; cbn [rbind].
    + apply IH. exists jf. split; [| exact Hout].
      destruct Hin as [-> | Hin]; [| exact Hin].
      rewrite (get_partial_func_unknown jf Hout) in Hf. discriminate.
    + reflexivity.
Qed.

Lemma MOVE_indices_head (src_df : dataframe) (maxlen : Z) (r : list value)
    (more : list (list value)) :
  rows src_df = r :: more ->
  exists rest, Data_Utils.MOVE_indices src_df maxlen = 0%nat :: rest.
Proof.
  intro Hrows. unfold Data_Utils.MOVE_indices, Data_Utils.MOVE_bound, py_range, df_len. rewrite Hrows.
  destruct (Z.to_nat (Z.max (Z.of_nat (List.length (r :: more))) maxlen)) as [|n] eqn:E.
  - cbn [List.length] in E. lia.
  - exists (seq 1 n). reflexivity.
Qed.

Lemma MOVE_body_unknown (src_datapath dest_datapath : string) (src_df dest_df : dataframe)
    (flist : list json_func) (name : string) (cells : list value)
    (more : list (list value)) (w : fs) :
  (exists jf, In jf flist /\ ~ In (F jf) operation_names) ->
  rows src_df = (VStr name :: cells) :: more ->
  Data_Utils.MOVE_body src_datapath dest_datapath src_df flist dest_df 0 w =
    (mkFs (dirs w) (csv_files w) (img_files w)
       (calls w ++ [IoImread (os_path_join src_datapath name)])%list,
     Raise (Exception "{fname} is not in the list of functions")).
Proof.
  intros Hunk Hrows.
  unfold Data_Utils.MOVE_body, Data_Utils.df_data_fromidx, df_iloc, cv2_imread, log_call, bind, lift, ret.
  rewrite Hrows. cbn [nth_error row_getitem list_getitem dirs csv_files img_files calls].
  now rewrite (apply_flist_unknown _ flist Hunk).
Qed.

Lemma MOVE_unknown_run (src_datadir folder dest_datadir : string)
    (flist : list json_func) (maxlen : Z) (op : string) (w : fs) (src_df : dataframe)
    (name : string) (cells : list value) (more : list (list value)) :
  Data_Utils.MOVE_entry_check op src_datadir dest_datadir = true ->
  (exists jf, In jf flist /\ ~ In (F jf) operation_names) ->
  lookup (os_path_join (os_path_join src_datadir folder) "data.csv") (csv_files w)
    = Some src_df ->
  rows src_df = (VStr name :: cells) :: more ->
  let src_datapath := os_path_join src_datadir folder in
  let there := has_key dest_datadir (dirs w) || has_key dest_datadir (csv_files w)
               || has_key dest_datadir (img_files w) in
  Data_Utils.MOVE src_datadir folder dest_datadir flist maxlen op w =
    (mkFs (if there then dirs w else (dest_datadir, []) :: dirs w)
          (csv_files w) (img_files w)
          (calls w ++ (if there then [] else [IoMakedirs dest_datadir])
           ++ [IoReadCsv (os_path_join src_datapath "data.csv");
               IoImread (os_path_join src_datapath name)])%list,
     Raise (Exception "{fname} is not in the list of functions")).
Proof.
  intros Hcheck Hunk Hcsv Hrows src_datapath there.
  destruct (MOVE_indices_head src_df maxlen _ _ Hrows) as [rest Hidx].
  assert (Hop : op = "aug").
  { unfold Data_Utils.MOVE_entry_check in Hcheck.
    apply andb_true_iff in Hcheck. now apply String.eqb_eq. }
  unfold Data_Utils.MOVE. rewrite Hcheck. subst op.
  unfold Data_Utils.get_dest_datapath, Data_Utils.get_df, pd_read_csv, os_path_exists,
    os_makedirs, log_call, bind, lift, ret.
  cbn [py_assert String.eqb Ascii.eqb Bool.eqb].
  fold there. destruct there; cbn [negb dirs csv_files img_files calls]; rewrite Hcsv;
    rewrite Hidx; cbn [Data_Utils.MOVE_loop];
    run_raise (MOVE_body_unknown _ _ src_df _ flist name cells more _ Hunk Hrows);
    cbn [dirs csv_files img_files calls]; repeat rewrite <- app_assoc; reflexivity.
Qed.




(** * Further properties of the code *)

(** ** [cropVertical] and [rot90] *)

Lemma py_slice_from {A : Type} (s : Z) (l : list A) :
  (0 <= s)%Z -> py_slice s None l = skipn (Z.to_nat s) l.
Proof.
  intro Hs. unfold py_slice, clamp_index.
  destruct (Z.ltb_spec s 0) as [Hneg | _]; [lia |].
  destruct (Z.le_gt_cases s (Z.of_nat (List.length l))) as [Hle | Hgt].
  - rewrite Z.min_l by lia. apply firstn_all2. rewrite length_skipn. lia.
  - rewrite Z.min_r by lia. rewrite Nat2Z.id, skipn_all.
    rewrite (skipn_all2 l) by lia. now rewrite firstn_nil.
Qed.

Lemma py_slice_between {A : Type} (s e : Z) (l : list A) :
  (0 <= s)%Z -> (0 < e)%Z ->
  py_slice s (Some e) l = firstn (Z.to_nat (e - s)) (skipn (Z.to_nat s) l).
Proof.
  intros Hs He. unfold py_slice, clamp_index.
  destruct (Z.ltb_spec s 0) as [Hneg | _]; [lia |].
  destruct (Z.ltb_spec e 0) as [Hneg | _]; [lia |].
  set (n := Z.of_nat (List.length l)).
  assert (Hn : Z.to_nat n = List.length l) by (unfold n; apply Nat2Z.id).
  destruct (Z.le_gt_cases n s) as [Hge | Hlt].
  - rewrite (Z.min_r s n) by lia. rewrite Hn, skipn_all.
    rewrite (skipn_all2 l) by lia. now rewrite !firstn_nil.
  - rewrite (Z.min_l s n) by lia.
    destruct (Z.le_gt_cases e n) as [Hen | Hen].
    + now rewrite (Z.min_l e n) by lia.
    + rewrite (Z.min_r e n) by lia.
      rewrite !firstn_all2; [reflexivity | |]; rewrite length_skipn; lia.
Qed.

(** X1.  With integer bounds [0 <= start] and [end > 0], [cropVertical] keeps
    the rows [start .. end-1] of the image (all rows from [start] on when
    [end] lies past the last row) and touches no other key; when [end] is at
    most the height, [max (end - start) 0] rows are left. *)
Theorem cropVertical_positive_end (d : pydict) (im : image) (s e : Z) :
  img d = Some im ->
  (0 <= s)%Z ->
  (0 < e)%Z ->
  let kept := firstn (Z.to_nat (e - s)) (skipn (Z.to_nat s) im) in
  cropVertical [VInt s; VInt e] d = Ok (mkDict (Some kept) (row d) (flag d) (img_name d)) /\
  ((e <= Z.of_nat (List.length im))%Z -> List.length kept = Z.to_nat (e - s)).
Proof.
  intros Him Hs He kept. split.
  - unfold cropVertical. cbn [List.length Nat.eqb py_assert rbind list_getitem nth_error].
    unfold py_lt_zero, py_gt_zero. cbn [py_num rbind].
    assert (Hneg : Qle_bool 0 (inject_Z e) = true).
    { apply Qle_bool_iff. unfold Qle; simpl. lia. }
    assert (Hpos : Qle_bool (inject_Z e) 0 = false).
    { destruct (Qle_bool (inject_Z e) 0) eqn:E; [| reflexivity].
      apply Qle_bool_iff in E. unfold Qle in E; simpl in E. lia. }
    rewrite Hneg, Hpos, Him. cbn [negb py_index rbind].
    rewrite (py_slice_between s e im Hs He). reflexivity.
  - intro Hle. unfold kept. rewrite length_firstn, length_skipn. lia.
Qed.

Lemma cropVertical_positive_end_witness :
  let kept := firstn (Z.to_nat (2 - 1)) (skipn (Z.to_nat 1) [[[1]]; [[2]]; [[3]]]%Z) in
  cropVertical [VInt 1; VInt 2] (mkDict (Some [[[1]]; [[2]]; [[3]]]%Z) None None None)
    = Ok (mkDict (Some kept) None None None) /\
  ((2 <= Z.of_nat (List.length [[[1]]; [[2]]; [[3]]]%Z))%Z ->
   List.length kept = Z.to_nat (2 - 1)).
Proof.
  apply (cropVertical_positive_end
           (mkDict (Some [[[1]]; [[2]]; [[3]]]%Z) None None None)
           [[[1]]; [[2]]; [[3]]]%Z 1 2).
  - reflexivity.
  - lia.
  - lia.
Defined.

Lemma cropVertical_from (d : pydict) (im : image) (s : Z) (cropEnd : value) (q : Q) :
  img d = Some im ->
  (0 <= s)%Z ->
  py_num cropEnd = Some q ->
  (q < 0)%Q ->
  cropVertical [VInt s; cropEnd] d
    = Ok (mkDict (Some (skipn (Z.to_nat s) im)) (row d) (flag d) (img_name d)).
Proof.
  intros Him Hs Hq Hneg.
  unfold cropVertical. cbn [List.length Nat.eqb py_assert rbind list_getitem nth_error].
  unfold py_lt_zero. rewrite Hq. cbn [rbind].
  assert (E : Qle_bool 0 q = false).
  { destruct (Qle_bool 0 q) eqn:E; [| reflexivity].
    apply Qle_bool_iff in E. exfalso. exact (Qlt_not_le _ _ Hneg E). }
  rewrite E, Him. cbn [negb py_index rbind].
  now rewrite (py_slice_from s im Hs).
Qed.

(** X2.  A negative [end] only says "to the last row": whatever its value,
    integer or float, [cropVertical] keeps every row from [start] on (it
    does not cut rows off the bottom as [img[start:end]] would), that is
    height minus [start] rows. *)
Theorem cropVertical_negative_end (d : pydict) (im : image) (s : Z) (cropEnd : value)
    (q : Q) :
  img d = Some im ->
  (0 <= s)%Z ->
  py_num cropEnd = Some q ->
  (q < 0)%Q ->
  let kept := skipn (Z.to_nat s) im in
  cropVertical [VInt s; cropEnd] d = Ok (mkDict (Some kept) (row d) (flag d) (img_name d)) /\
  List.length kept = (List.length im - Z.to_nat s)%nat.
Proof.
  intros Him Hs Hq Hneg kept. split.
  - exact (cropVertical_from d im s cropEnd q Him Hs Hq Hneg).
  - unfold kept. apply length_skipn.
Qed.

Lemma cropVertical_negative_end_witness :
  let kept := skipn (Z.to_nat 1) [[[1]]; [[2]]; [[3]]]%Z in
  cropVertical [VInt 1; VNum (-5 # 2)] (mkDict (Some [[[1]]; [[2]]; [[3]]]%Z) None None None)
    = Ok (mkDict (Some kept) None None None) /\
  List.length kept = (List.length [[[1]]; [[2]]; [[3]]]%Z - Z.to_nat 1)%nat.
Proof.
  apply (cropVertical_negative_end
           (mkDict (Some [[[1]]; [[2]]; [[3]]]%Z) None None None)
           [[[1]]; [[2]]; [[3]]]%Z 1 (VNum (-5 # 2)) (-5 # 2)).
  - reflexivity.
  - lia.
  - reflexivity.
  - reflexivity.
Defined.

(** X3.  Two top crops in a row are one top crop by the sum of the two
    starts. *)
Theorem cropVertical_top_crops_add (d : pydict) (im : image) (s t e1 e2 : Z) :
  img d = Some im ->
  (0 <= t)%Z -> (0 <= s)%Z -> (e1 < 0)%Z -> (e2 < 0)%Z ->
  rbind (cropVertical [VInt t; VInt e1] d) (cropVertical [VInt s; VInt e2])
    = cropVertical [VInt (t + s); VInt e1] d.
Proof.
  intros Him Ht Hs H1 H2.
  assert (Q1 : (inject_Z e1 < 0)%Q) by (unfold Qlt; simpl; lia).
  assert (Q2 : (inject_Z e2 < 0)%Q) by (unfold Qlt; simpl; lia).
  rewrite (cropVertical_from d im t (VInt e1) _ Him Ht eq_refl Q1).
  rewrite (cropVertical_from d im (t + s) (VInt e1) _ Him ltac:(lia) eq_refl Q1).
  cbn [rbind].
  rewrite (cropVertical_from
             (mkDict (Some (skipn (Z.to_nat t) im)) (row d) (flag d) (img_name d))
             (skipn (Z.to_nat t) im) s (VInt e2) _ eq_refl Hs eq_refl Q2).
  cbn [row flag img_name]. rewrite skipn_skipn.
  replace (Z.to_nat s + Z.to_nat t)%nat with (Z.to_nat (t + s)) by lia.
  reflexivity.
Qed.

Lemma cropVertical_top_crops_add_witness :
  rbind (cropVertical [VInt 1; VInt (-1)]
           (mkDict (Some [[[1]]; [[2]]; [[3]]]%Z) None None None))
        (cropVertical [VInt 1; VInt (-1)])
    = cropVertical [VInt (1 + 1); VInt (-1)]
        (mkDict (Some [[[1]]; [[2]]; [[3]]]%Z) None None None).
Proof.
  apply (cropVertical_top_crops_add
           (mkDict (Some [[[1]]; [[2]]; [[3]]]%Z) None None None)
           [[[1]]; [[2]]; [[3]]]%Z 1 1 (-1) (-1)); try reflexivity; lia.
Defined.

(** X4.  [rot90] never turns an image: the clockwise branch raises
    [NameError], and with any other direction the dict comes back as it
    was. *)
Theorem rot90_never_rotates (args : list value) (d : pydict) :
  (rot90 args d = Ok d \/ exists e, rot90 args d = Raise e) /\
  rot90 [VStr "clockwise"] d = Raise NameError /\
  rot90 [VStr "anticlockwise"] d = Ok d.
Proof.
  split; [| split; reflexivity].
  unfold rot90.
  destruct (py_assert (Nat.eqb (List.length args) 1) "Incorrect sized argument to rot90")
    as [[] | e]; cbn [rbind]; [| right; now exists e].
  destruct (list_getitem args 0) as [direction | e]; cbn [rbind];
    [| right; now exists e].
  repeat match goal with
         | |- context [match ?x with _ => _ end] =>
             destruct x; try (left; reflexivity); try (right; eexists; reflexivity)
         end.
Qed.

(** ** [flipNonZero] at angle zero, and the label transforms in a chain *)

Lemma zero_Qeq_bool (a : Q) : (a == 0)%Q -> Qeq_bool a 0 = true.
Proof. intro H. now apply Qeq_bool_iff. Qed.

(** X5.  At angle zero [flipNonZero] only marks the record as dropped: image,
    row and image name stay as they are, no image is needed for it, [MOVE]'s
    reading of the flag rejects the record, and a second application changes
    nothing more. *)
Theorem flipNonZero_zero_angle (d : pydict) (cells : list value) (v : value) (a : Q) :
  row d = Some (Series cells) ->
  nth_error cells 1 = Some v ->
  py_num v = Some a ->
  (a == 0)%Q ->
  let dropped := mkDict (img d) (row d) (Some false) (img_name d) in
  flipNonZero [] d = Ok dropped /\
  Data_Utils.dict_get_flag dropped = false /\
  flipNonZero [] dropped = Ok dropped.
Proof.
  intros Hrow Hv Ha Hz dropped.
  assert (Hrun : forall d0, row d0 = Some (Series cells) ->
            flipNonZero [] d0 = Ok (mkDict (img d0) (row d0) (Some false) (img_name d0))).
  { intros [i r f n] H0. cbn [row] in H0. subst r.
    unfold flipNonZero, row_getitem, list_getitem.
    cbn [List.length Nat.eqb py_assert rbind row img flag img_name]. rewrite Hv.
    cbn [rbind]. unfold py_eq_zero. now rewrite Ha, (zero_Qeq_bool a Hz). }
  split; [now apply Hrun |]. split; [reflexivity |].
  now rewrite (Hrun dropped Hrow).
Qed.

(** A record whose image could not be read, at angle 0. *)
Lemma flipNonZero_zero_angle_witness :
  let d := mkDict None (Some (Series [VStr "a.png"; VNum (0 # 7)])) None None in
  let dropped := mkDict (img d) (row d) (Some false) (img_name d) in
  flipNonZero [] d = Ok dropped /\
  Data_Utils.dict_get_flag dropped = false /\
  flipNonZero [] dropped = Ok dropped.
Proof.
  apply (flipNonZero_zero_angle
           (mkDict None (Some (Series [VStr "a.png"; VNum (0 # 7)])) None None)
           [VStr "a.png"; VNum (0 # 7)] (VNum (0 # 7)) (0 # 7)); reflexivity.
Defined.

Lemma py_add_numeric (x y : value) (a b : Q) :
  py_num x = Some a -> py_num y = Some b ->
  exists z c, py_add x y = Ok z /\ py_num z = Some c.
Proof.
  destruct x, y; cbn; intros Ha Hb; try discriminate; eexists; eexists; split; reflexivity.
Qed.

(** No transform that reads the angle survives a numeric scalar under "row". *)
Lemma scalar_row_raises (d : pydict) (z : value) (c : Q) (args : list value) :
  row d = Some (Scalar z) ->
  py_num z = Some c ->
  (exists e, radOffset args d = Raise e) /\
  (exists e, rad2deg args d = Raise e) /\
  (exists e, flipNonZero args d = Raise e).
Proof.
  intros Hrow Hz.
  assert (Hget : row_getitem (row d) 1 = Raise TypeError).
  { rewrite Hrow. destruct z; cbn in Hz |- *; [discriminate | reflexivity | reflexivity]. }
  unfold radOffset, rad2deg, flipNonZero. repeat split.
  - destruct (py_assert (Nat.eqb (List.length args) 1) _) as [[] | e]; cbn [rbind];
      [| now exists e].
    destruct (list_getitem args 0) as [o | e]; cbn [rbind]; [| now exists e].
    rewrite Hget. now eexists.
  - destruct (py_assert (Nat.eqb (List.length args) 0) _) as [[] | e]; cbn [rbind];
      [| now exists e].
    rewrite Hget. now eexists.
  - destruct (py_assert (Nat.eqb (List.length args) 0) _) as [[] | e]; cbn [rbind];
      [| now exists e].
    rewrite Hget. now eexists.
Qed.



(** ** The two registries *)

(** X7.  [get_partial_func] resolves a descriptor exactly when its name is,
    letter for letter, one of the five operation names; the arguments play
    no part in it. *)
Theorem get_partial_func_resolves_iff (jf : json_func) :
  (exists f, Data_Utils.get_partial_func jf = Ok f) <-> In (F jf) operation_names.
Proof.
  split.
  - intros [f Hf].
    destruct (in_dec string_dec (F jf) operation_names) as [Hin | Hout]; [exact Hin |].
    rewrite (get_partial_func_unknown jf Hout) in Hf. discriminate.
  - apply get_partial_func_known.
Qed.

Lemma apply_flist_known (d : pydict) (flist : list json_func) :
  Forall (fun jf => In (F jf) operation_names) flist ->
  Data_Utils.apply_flist d flist = Ok None.
Proof.
  induction 1 as [|jf rest Hjf _ IH]; cbn [Data_Utils.apply_flist].
  - reflexivity.
  - destruct (get_partial_func_known jf Hjf) as [f ->]. exact IH.
Qed.

(** X8.  [apply_flist] comes back (with [None]) exactly when every name of
    the list is an operation name: neither the record nor the arguments of
    the operations are looked at. *)
Theorem apply_flist_returns_iff (d : pydict) (flist : list json_func) :
  Data_Utils.apply_flist d flist = Ok None <->
  Forall (fun jf => In (F jf) operation_names) flist.
Proof.
  split; [| apply apply_flist_known].
  intro Hok. apply Forall_forall. intros jf Hin.
  destruct (in_dec string_dec (F jf) operation_names) as [Hk | Hout]; [exact Hk |].
  rewrite (apply_flist_unknown d flist (ex_intro _ jf (conj Hin Hout))) in Hok.
  discriminate.
Qed.

Lemma tf_partial_get_partial_func (jf : json_func) :
  Data_Utils.tf_partial (F jf) (args jf) = Data_Utils.get_partial_func jf.
Proof. reflexivity. Qed.

(** X9.  [get_partials_list] returns a list exactly when every descriptor
    resolves, and then its partials are, position by position, the ones
    [get_partial_func] gives for the descriptors: same length, same order. *)
Theorem get_partials_list_pointwise (tf_list : list json_func)
    (parsed : list (pydict -> result pydict)) :
  Data_Utils.get_partials_list tf_list = Ok parsed <->
  Forall2 (fun jf p => Data_Utils.get_partial_func jf = Ok p) tf_list parsed.
Proof.
  revert parsed. induction tf_list as [|tf rest IH]; intro parsed;
    cbn [Data_Utils.get_partials_list].
  - split.
    + intro H. inversion H. constructor.
    + intro H. inversion H. reflexivity.
  - rewrite tf_partial_get_partial_func. split.
    + intro H.
      destruct (Data_Utils.get_partial_func tf) as [f | e] eqn:Ef; cbn [rbind] in H;
        [| discriminate].
      destruct (Data_Utils.get_partials_list rest) as [ps | e] eqn:E; cbn [rbind] in H;
        [| discriminate].
      inversion H; subst parsed. constructor; [exact Ef | now apply IH].
    + intro H. inversion H as [| jf p l1 l2 Hp Hrest]; subst.
      rewrite Hp. cbn [rbind]. apply IH in Hrest. rewrite Hrest. reflexivity.
Qed.

(** X10.  Where [get_partials_list] fails, it fails with the unknown-operation
    exception, and it does so exactly when some name of the list is not an
    operation name: the whole pipeline is checked before any partial is
    handed out. *)
Theorem get_partials_list_raises_iff (tf_list : list json_func) :
  (exists jf, In jf tf_list /\ ~ In (F jf) operation_names) <->
  Data_Utils.get_partials_list tf_list
    = Raise (Exception "{fname} is not in the list of functions").
Proof.
  induction tf_list as [|tf rest IH]; cbn [Data_Utils.get_partials_list].
  - split; [intros (jf & [] & _) | discriminate].
  - rewrite tf_partial_get_partial_func.
    destruct (in_dec string_dec (F tf) operation_names) as [Hk | Hout].
    + destruct (get_partial_func_known tf Hk) as [f ->]. cbn [rbind]. split.
      * intros (jf & [-> | Hin] & Hjf); [contradiction |].
        rewrite (proj1 IH (ex_intro _ jf (conj Hin Hjf))). reflexivity.
      * intro H.
        destruct (Data_Utils.get_partials_list rest) as [ps | e] eqn:E; cbn [rbind] in H;
          [discriminate |].
        destruct (proj2 IH H) as (jf & Hin & Hjf).
        exists jf. split; [now right | exact Hjf].
    + rewrite (get_partial_func_unknown tf Hout). cbn [rbind]. split; [reflexivity |].
      intros _. exists tf. split; [now left | exact Hout].
Qed.

(** X11.  [apply_tfs] over two lists laid end to end is [apply_tfs] over the
    first, followed by [apply_tfs] over the second from where the first came
    out; a callable that raises ends the chain there. *)
Theorem apply_tfs_app {I R : Type} (old_img : I) (old_row : R)
    (tfs1 tfs2 : list (I -> R -> result (I * R))) :
  Data_Utils.apply_tfs old_img old_row (tfs1 ++ tfs2) =
  rbind (Data_Utils.apply_tfs old_img old_row tfs1)
        (fun new => Data_Utils.apply_tfs (fst new) (snd new) tfs2).
Proof.
  revert old_img old_row. induction tfs1 as [|tf rest IH]; intros old_img old_row.
  - reflexivity.
  - cbn [app Data_Utils.apply_tfs].
    destruct (tf old_img old_row) as [new | e]; cbn [rbind]; [apply IH | reflexivity].
Qed.

(** ** [MOVE] and the files *)

Lemma keeps_files_ret {A : Type} (a : A) : keeps_files (@ret fs A a).
Proof. intro w. split; reflexivity. Qed.

Lemma keeps_files_raise {A : Type} (e : exn) : keeps_files (@raise fs A e).
Proof. intro w. split; reflexivity. Qed.

Lemma keeps_files_lift {A : Type} (r : result A) : keeps_files (@lift fs A r).
Proof. intro w. split; reflexivity. Qed.

Lemma keeps_files_bind {A B : Type} (m : M fs A) (k : A -> M fs B) :
  keeps_files m -> (forall a, keeps_files (k a)) -> keeps_files (bind m k).
Proof.
  intros Hm Hk w. unfold bind. destruct (Hm w) as [Hc Hi].
  destruct (m w) as [w1 [a | e]]; cbn [fst] in Hc, Hi.
  - destruct (Hk a w1) as [Hc' Hi']. split; congruence.
  - cbn [fst]. split; assumption.
Qed.

Lemma keeps_files_log_call (e : io_event) : keeps_files (log_call e).
Proof. intro w. split; reflexivity. Qed.

Lemma keeps_files_os_makedirs (p : string) : keeps_files (os_makedirs p).
Proof. intro w. split; reflexivity. Qed.

Lemma keeps_files_os_path_exists (p : string) : keeps_files (os_path_exists p).
Proof. intro w. split; reflexivity. Qed.

Lemma keeps_files_os_listdir (p : string) : keeps_files (os_listdir p).
Proof. intro w. unfold os_listdir. destruct (lookup p (dirs w)); split; reflexivity. Qed.

Lemma keeps_files_pd_read_csv (p : string) : keeps_files (pd_read_csv p).
Proof.
  intro w. unfold pd_read_csv, bind, log_call. cbn [csv_files].
  destruct (lookup p (csv_files w)); split; reflexivity.
Qed.

Lemma keeps_files_cv2_imread (p : string) : keeps_files (cv2_imread p).
Proof. intro w. split; reflexivity. Qed.

Lemma keeps_files_get_dest_datapath (dest_datadir folder op : string) :
  keeps_files (Data_Utils.get_dest_datapath dest_datadir folder op).
Proof.
  unfold Data_Utils.get_dest_datapath. destruct (op =? "aug").
  - apply keeps_files_ret.
  - apply keeps_files_bind; [apply keeps_files_os_listdir |].
    intro entries. apply keeps_files_ret.
Qed.

Lemma keeps_files_df_data_fromidx (datapath : string) (df : dataframe) (idx : nat) :
  keeps_files (Data_Utils.df_data_fromidx datapath df idx).
Proof.
  unfold Data_Utils.df_data_fromidx.
  apply keeps_files_bind; [apply keeps_files_lift |]. intro r.
  apply keeps_files_bind; [apply keeps_files_lift |]. intros [name | z | q].
  - apply keeps_files_bind; [apply keeps_files_cv2_imread |].
    intro im. apply keeps_files_ret.
  - apply keeps_files_raise.
  - apply keeps_files_raise.
Qed.

Lemma keeps_files_MOVE_body (src_datapath dest_datapath : string) (src_df : dataframe)
    (flist : list json_func) (dest_df : dataframe) (i : nat) :
  keeps_files (Data_Utils.MOVE_body src_datapath dest_datapath src_df flist dest_df i).
Proof.
  unfold Data_Utils.MOVE_body.
  apply keeps_files_bind; [apply keeps_files_df_data_fromidx |]. intros [src_img src_row].
  apply keeps_files_bind; [apply keeps_files_lift |]. intros [d |].
  - destruct (Data_Utils.dict_get_flag d); [| apply keeps_files_ret].
    apply keeps_files_bind; [apply keeps_files_lift |]. intro first.
    apply keeps_files_bind; [apply keeps_files_lift |]. intro dest_df'.
    destruct (match img_name d with Some n => n | None => first end) as [name | z | q].
    + apply keeps_files_bind; [apply keeps_files_raise |].
      intro u. apply keeps_files_ret.
    + apply keeps_files_raise.
    + apply keeps_files_raise.
  - apply keeps_files_raise.
Qed.

Lemma keeps_files_MOVE_loop (src_datapath dest_datapath : string) (src_df : dataframe)
    (flist : list json_func) (idxs : list nat) :
  forall dest_df,
    keeps_files (Data_Utils.MOVE_loop src_datapath dest_datapath src_df flist idxs dest_df).
Proof.
  induction idxs as [|i rest IH]; intro dest_df; cbn [Data_Utils.MOVE_loop].
  - apply keeps_files_ret.
  - apply keeps_files_bind; [apply keeps_files_MOVE_body | exact IH].
Qed.

Lemma index_written_last_bind {A B : Type} (m : M fs A) (k : A -> M fs B) :
  keeps_files m -> (forall a, index_written_last (k a)) -> index_written_last (bind m k).
Proof.
  intros Hm Hk w. unfold bind. destruct (Hm w) as [Hc Hi].
  destruct (m w) as [w1 [a | e]]; cbn [fst] in Hc, Hi.
  - destruct (Hk a w1) as [Hi' Hc']. split; [congruence |].
    destruct (snd (k a w1)); [| congruence].
    destruct Hc' as (p & df & Hp). exists p, df. congruence.
  - cbn [fst snd]. split; assumption.
Qed.

Lemma index_written_last_df_to_csv (df : dataframe) (p : string) :
  index_written_last (df_to_csv df p).
Proof.
  intro w. unfold df_to_csv.
  destruct (existsb _ (dirs w)); cbn [fst snd img_files csv_files].
  - split; [reflexivity |]. now exists p, df.
  - split; reflexivity.
Qed.

(** X12.  [MOVE] never writes or changes an image file.  When it raises, the
    index files are as they were (no half-done index is left behind); when it
    returns, exactly one index file has been added. *)
Theorem MOVE_writes_index_last (src_datadir folder dest_datadir : string)
    (flist : list json_func) (maxlen : Z) (op : string) (w : fs) :
  let run := Data_Utils.MOVE src_datadir folder dest_datadir flist maxlen op w in
  img_files (fst run) = img_files w /\
  match snd run with
  | Ok _ => exists p df, csv_files (fst run) = (p, df) :: csv_files w
  | Raise _ => csv_files (fst run) = csv_files w
  end.
Proof.
  cbv zeta. revert w.
  change (index_written_last
            (Data_Utils.MOVE src_datadir folder dest_datadir flist maxlen op)).
  unfold Data_Utils.MOVE.
  apply index_written_last_bind; [apply keeps_files_lift |]. intros _.
  apply index_written_last_bind; [apply keeps_files_os_path_exists |]. intro there.
  apply index_written_last_bind.
  { destruct (negb there); [apply keeps_files_os_makedirs | apply keeps_files_ret]. }
  intros _.
  apply index_written_last_bind; [apply keeps_files_get_dest_datapath |].
  intro dest_datapath.
  apply index_written_last_bind; [apply keeps_files_pd_read_csv |]. intro src_df.
  apply index_written_last_bind; [apply keeps_files_MOVE_loop |]. intro dest_df.
  apply index_written_last_df_to_csv.
Qed.

(** ** The ways a [MOVE] ends *)

Lemma apply_flist_none_or_raise (d : pydict) (flist : list json_func) :
  Data_Utils.apply_flist d flist = Ok None \/
  exists e, Data_Utils.apply_flist d flist = Raise e.
Proof.
  induction flist as [|jf rest IH]; cbn [Data_Utils.apply_flist].
  - now left.
  - destruct (get_partial_func_cases jf) as [[f ->] | ->]; cbn [rbind].
    + exact IH.
    + right. now eexists.
Qed.

(** No turn of the loop comes to its end. *)
Lemma MOVE_body_raises (src_datapath dest_datapath : string) (src_df : dataframe)
    (flist : list json_func) (dest_df : dataframe) (i : nat) (w : fs) :
  exists e,
    snd (Data_Utils.MOVE_body src_datapath dest_datapath src_df flist dest_df i w) = Raise e.
Proof.
  unfold Data_Utils.MOVE_body, bind.
  destruct (Data_Utils.df_data_fromidx src_datapath src_df i w) as [w1 [[im r] | e]];
    [| now exists e].
  unfold lift.
  destruct (apply_flist_none_or_raise (mkDict im (Some (Series r)) None None) flist)
    as [-> | [e ->]].
  - now exists AttributeError.
  - now exists e.
Qed.

Lemma MOVE_loop_raises (src_datapath dest_datapath : string) (src_df : dataframe)
    (flist : list json_func) (i : nat) (rest : list nat) (dest_df : dataframe) (w : fs) :
  exists e,
    snd (Data_Utils.MOVE_loop src_datapath dest_datapath src_df flist (i :: rest) dest_df w)
    = Raise e.
Proof.
  cbn [Data_Utils.MOVE_loop]. unfold bind.
  destruct (MOVE_body_raises src_datapath dest_datapath src_df flist dest_df i w)
    as [e He].
  destruct (Data_Utils.MOVE_body src_datapath dest_datapath src_df flist dest_df i w)
    as [w1 [a | e1]]; cbn [snd] in He; [discriminate |].
  now exists e1.
Qed.

Lemma MOVE_entry_check_aug (op src_datadir dest_datadir : string) :
  Data_Utils.MOVE_entry_check op src_datadir dest_datadir = true -> op = "aug".
Proof.
  unfold Data_Utils.MOVE_entry_check. intro H.
  apply andb_true_iff in H. now apply String.eqb_eq.
Qed.

(** [MOVE] past its assertion, up to the loop. *)
Lemma MOVE_setup_run (src_datadir folder dest_datadir : string)
    (flist : list json_func) (maxlen : Z) (op : string) (w : fs) :
  Data_Utils.MOVE_entry_check op src_datadir dest_datadir = true ->
  let src_datapath := os_path_join src_datadir folder in
  let dest_datapath := os_path_join dest_datadir folder in
  let csvpath := os_path_join src_datapath "data.csv" in
  Data_Utils.MOVE src_datadir folder dest_datadir flist maxlen op w =
    match lookup csvpath (csv_files w) with
    | None => (after_setup dest_datadir csvpath w, Raise OSError)
    | Some src_df =>
        bind (Data_Utils.MOVE_loop src_datapath dest_datapath src_df flist
                (Data_Utils.MOVE_indices src_df maxlen) (mkDf (columns src_df) []))
             (fun dest_df =>
                df_to_csv (Data_Utils.get_finaldf src_df dest_df "aug")
                  (os_path_join dest_datapath "data.csv"))
             (after_setup dest_datadir csvpath w)
    end.
Proof.
  intros Hcheck src_datapath dest_datapath csvpath.
  pose proof (MOVE_entry_check_aug _ _ _ Hcheck) as Hop.
  unfold Data_Utils.MOVE. rewrite Hcheck. subst op.
  unfold Data_Utils.get_dest_datapath, Data_Utils.get_df, pd_read_csv, os_path_exists,
    os_makedirs, log_call, lift, ret, after_setup, bind.
  cbn [py_assert String.eqb Ascii.eqb Bool.eqb].
  fold src_datapath. fold csvpath. fold dest_datapath.
  destruct (has_key dest_datadir (dirs w) || has_key dest_datadir (csv_files w)
            || has_key dest_datadir (img_files w));
    cbn [negb dirs csv_files img_files calls];
    destruct (lookup csvpath (csv_files w)) as [src_df |];
    repeat rewrite <- app_assoc; reflexivity.
Qed.

Lemma MOVE_indices_nil (src_df : dataframe) (maxlen : Z) :
  Data_Utils.MOVE_indices src_df maxlen = [] -> rows src_df = [] /\ (maxlen <= 0)%Z.
Proof.
  unfold Data_Utils.MOVE_indices, Data_Utils.MOVE_bound, py_range, df_len. intro H.
  assert (Hn : Z.to_nat (Z.max (Z.of_nat (List.length (rows src_df))) maxlen) = 0%nat).
  { destruct (Z.to_nat _); [reflexivity | discriminate]. }
  split; [| lia].
  destruct (rows src_df); [reflexivity | cbn [List.length] in Hn; lia].
Qed.

(** X13.  [MOVE] returns only from a walk over nothing: the call went past
    the entry assertion, the limit is not positive, the source index has no
    row, and what has been written is that empty index under the
    destination folder. *)
Theorem MOVE_returns_only_on_empty_walk (src_datadir folder dest_datadir : string)
    (flist : list json_func) (maxlen : Z) (op : string) (w : fs) :
  snd (Data_Utils.MOVE src_datadir folder dest_datadir flist maxlen op w) = Ok tt ->
  Data_Utils.MOVE_entry_check op src_datadir dest_datadir = true /\
  (maxlen <= 0)%Z /\
  exists src_df,
    lookup (os_path_join (os_path_join src_datadir folder) "data.csv") (csv_files w)
      = Some src_df /\
    rows src_df = [] /\
    csv_files (fst (Data_Utils.MOVE src_datadir folder dest_datadir flist maxlen op w))
      = (os_path_join (os_path_join dest_datadir folder) "data.csv", src_df) :: csv_files w.
Proof.
  destruct (Data_Utils.MOVE_entry_check op src_datadir dest_datadir) eqn:Hcheck.
  - rewrite (MOVE_setup_run src_datadir folder dest_datadir flist maxlen op w Hcheck).
    cbv zeta.
    destruct (lookup (os_path_join (os_path_join src_datadir folder) "data.csv")
                (csv_files w)) as [src_df |]; [| discriminate].
    destruct (Data_Utils.MOVE_indices src_df maxlen) as [|i rest] eqn:Hidx.
    + destruct (MOVE_indices_nil src_df maxlen Hidx) as [Hrows Hmax].
      cbn [Data_Utils.MOVE_loop]. unfold bind, ret, df_to_csv.
      destruct (existsb _ (dirs (after_setup dest_datadir _ w))); cbn [fst snd];
        [| discriminate].
      intros _. split; [reflexivity |]. split; [exact Hmax |].
      exists src_df. split; [reflexivity |]. split; [exact Hrows |].
      cbn [csv_files after_setup].
      destruct src_df as [cols rs]. cbn [rows columns] in Hrows |- *. subst rs.
      reflexivity.
    + unfold bind.
      destruct (MOVE_loop_raises (os_path_join src_datadir folder)
                  (os_path_join dest_datadir folder) src_df flist i rest
                  (mkDf (columns src_df) [])
                  (after_setup dest_datadir
                     (os_path_join (os_path_join src_datadir folder) "data.csv") w))
        as [e He].
      destruct (Data_Utils.MOVE_loop _ _ _ _ _ _ _) as [w1 [a | e1]];
        cbn [snd] in He |- *; discriminate.
  - unfold Data_Utils.MOVE, bind, lift. rewrite Hcheck. discriminate.
Qed.

(** The walk over the empty sample index returns. *)
Lemma MOVE_returns_only_on_empty_walk_witness :
  Data_Utils.MOVE_entry_check "aug" "/data" "/out" = true /\
  (-1 <= 0)%Z /\
  exists src_df,
    lookup (os_path_join (os_path_join "/data" "run") "data.csv")
      (csv_files (sample_fs empty_index)) = Some src_df /\
    rows src_df = [] /\
    csv_files (fst (Data_Utils.MOVE "/data" "run" "/out" [mkFunc "flipNonZero" []] (-1)
                      "aug" (sample_fs empty_index)))
      = (os_path_join (os_path_join "/out" "run") "data.csv", src_df)
        :: csv_files (sample_fs empty_index).
Proof.
  apply (MOVE_returns_only_on_empty_walk "/data" "run" "/out" [mkFunc "flipNonZero" []]
           (-1) "aug" (sample_fs empty_index)).
  reflexivity.
Defined.

Lemma MOVE_body_known (src_datapath dest_datapath : string) (src_df dest_df : dataframe)
    (flist : list json_func) (name : string) (cells : list value)
    (more : list (list value)) (w : fs) :
  Forall (fun jf => In (F jf) operation_names) flist ->
  rows src_df = (VStr name :: cells) :: more ->
  Data_Utils.MOVE_body src_datapath dest_datapath src_df flist dest_df 0 w =
    (mkFs (dirs w) (csv_files w) (img_files w)
       (calls w ++ [IoImread (os_path_join src_datapath name)])%list,
     Raise AttributeError).
Proof.
  intros Hknown Hrows.
  unfold Data_Utils.MOVE_body, Data_Utils.df_data_fromidx, df_iloc, cv2_imread, log_call,
    bind, lift, ret.
  rewrite Hrows. cbn [nth_error row_getitem list_getitem dirs csv_files img_files calls].
  now rewrite (apply_flist_known _ flist Hknown).
Qed.







(** ** The destination folder of a move *)

Lemma digit_value_digit_of (d : nat) : (d < 10)%nat -> digit_value (digit_of d) = d.
Proof.
  intro Hd. unfold digit_value, digit_of.
  rewrite nat_ascii_embedding by lia. lia.
Qed.

Lemma digit_of_not_slash (d : nat) : (d < 10)%nat -> Ascii.eqb (digit_of d) "/" = false.
Proof.
  intro Hd. do 10 (destruct d as [|d]; [reflexivity |]). lia.
Qed.

Lemma str_of_nat_fuel_read (fuel : nat) :
  forall n acc, (n < fuel)%nat ->
    int_of_str_from (str_of_nat_fuel fuel n acc) 0 = int_of_str_from acc n.
Proof.
  induction fuel as [|fuel IH]; intros n acc Hn; [lia |].
  cbn [str_of_nat_fuel].
  assert (Hmod : (n mod 10 < 10)%nat) by (apply Nat.mod_upper_bound; lia).
  pose proof (Nat.div_mod_eq n 10) as Hdm.
  destruct (Nat.eqb_spec (n / 10) 0) as [Hz | Hnz].
  - cbn [int_of_str_from]. rewrite digit_value_digit_of by exact Hmod.
    f_equal. lia.
  - rewrite IH by lia. cbn [int_of_str_from].
    rewrite digit_value_digit_of by exact Hmod. f_equal. lia.
Qed.

(** [int(str(n)) == n] *)
Lemma int_of_str_of_nat (n : nat) : int_of_str (str_of_nat n) = n.
Proof.
  unfold int_of_str, str_of_nat. rewrite str_of_nat_fuel_read by lia. reflexivity.
Qed.

Lemma str_of_nat_head (n : nat) : starts_with_slash (str_of_nat n) = false.
Proof.
  unfold str_of_nat.
  assert (H : forall fuel m acc, (0 < fuel)%nat ->
            starts_with_slash acc = false \/ True ->
            starts_with_slash (str_of_nat_fuel fuel m acc) = false).
  { induction fuel as [|fuel IH]; intros m acc Hf _; [lia |].
    cbn [str_of_nat_fuel].
    assert (Hmod : (m mod 10 < 10)%nat) by (apply Nat.mod_upper_bound; lia).
    destruct (Nat.eqb (m / 10) 0).
    - cbn [starts_with_slash]. now apply digit_of_not_slash.
    - destruct fuel as [|fuel'].
      + cbn [str_of_nat_fuel starts_with_slash]. now apply digit_of_not_slash.
      + apply IH; [lia | now right]. }
  apply H; [lia | now right].
Qed.

Lemma string_app_cancel (a x y : string) : a ++ x = a ++ y -> x = y.
Proof.
  induction a as [|c a IH]; cbn; intro H; [exact H |].
  inversion H. now apply IH.
Qed.

Lemma os_path_join_cancel (a b1 b2 : string) :
  starts_with_slash b1 = starts_with_slash b2 ->
  os_path_join a b1 = os_path_join a b2 -> b1 = b2.
Proof.
  unfold os_path_join. intros Hs. rewrite Hs.
  destruct (starts_with_slash b2); [trivial |].
  destruct ((a =? "") || ends_with_slash a); intro H.
  - exact (string_app_cancel _ _ _ H).
  - apply string_app_cancel in H. exact (string_app_cancel _ _ _ H).
Qed.

(** X17.  Outside augment mode the destination is [folder] followed by the
    number of entries of the destination root, in decimal: two listings of
    different sizes never give the same destination path. *)
Theorem get_dest_datapath_by_count (dest_datadir folder op : string) (w1 w2 : fs)
    (entries1 entries2 : list string) :
  (op =? "aug") = false ->
  lookup dest_datadir (dirs w1) = Some entries1 ->
  lookup dest_datadir (dirs w2) = Some entries2 ->
  List.length entries1 <> List.length entries2 ->
  exists p1 p2,
    Data_Utils.get_dest_datapath dest_datadir folder op w1 = (w1, Ok p1) /\
    Data_Utils.get_dest_datapath dest_datadir folder op w2 = (w2, Ok p2) /\
    p1 = os_path_join dest_datadir (folder ++ str_of_nat (List.length entries1)) /\
    p1 <> p2.
Proof.
  intros Hop H1 H2 Hne.
  exists (os_path_join dest_datadir (folder ++ str_of_nat (List.length entries1))),
         (os_path_join dest_datadir (folder ++ str_of_nat (List.length entries2))).
  unfold Data_Utils.get_dest_datapath, os_listdir, bind, ret. rewrite Hop, H1, H2.
  repeat split.
  intro Heq. apply os_path_join_cancel in Heq.
  - apply string_app_cancel in Heq. apply Hne.
    rewrite <- (int_of_str_of_nat (List.length entries1)), Heq.
    apply int_of_str_of_nat.
  - destruct folder as [|c t]; [| reflexivity].
    cbn [append]. now rewrite !str_of_nat_head.
Qed.

(** The names after 9 and after 10 entries: [run9] and [run10]. *)
Lemma get_dest_datapath_by_count_witness :
  let w1 := mkFs [("/out", ["a"; "b"; "c"; "d"; "e"; "f"; "g"; "h"; "i"])] [] [] [] in
  let w2 := mkFs [("/out", ["a"; "b"; "c"; "d"; "e"; "f"; "g"; "h"; "i"; "j"])] [] [] [] in
  exists p1 p2,
    Data_Utils.get_dest_datapath "/out" "run" "mv" w1 = (w1, Ok p1) /\
    Data_Utils.get_dest_datapath "/out" "run" "mv" w2 = (w2, Ok p2) /\
    p1 = os_path_join "/out" ("run" ++ str_of_nat 9) /\
    p1 <> p2.
Proof.
  apply (get_dest_datapath_by_count "/out" "run" "mv"
           (mkFs [("/out", ["a"; "b"; "c"; "d"; "e"; "f"; "g"; "h"; "i"])] [] [] [])
           (mkFs [("/out", ["a"; "b"; "c"; "d"; "e"; "f"; "g"; "h"; "i"; "j"])] [] [] [])
           ["a"; "b"; "c"; "d"; "e"; "f"; "g"; "h"; "i"]
           ["a"; "b"; "c"; "d"; "e"; "f"; "g"; "h"; "i"; "j"]).
  - reflexivity.
  - reflexivity.
  - reflexivity.
  - discriminate.
Defined.

(** ** A training pass *)

Lemma train_turn_counts (g : bool) (epoch : nat) (i : nat) (b : batch) :
  let ev := turn_events g epoch "train" i b in
  let k := match turn_raise "train" i b with Some _ => 0%nat | None => 1%nat end in
  (k <= List.length (optim_steps ev))%nat /\
  (List.length (optim_steps ev) <= List.length (backward_calls ev))%nat /\
  (List.length (backward_calls ev) <= List.length (forward_modes ev))%nat /\
  (List.length (forward_modes ev) <= List.length (zero_grads ev))%nat /\
  (List.length (zero_grads ev) <= 1)%nat.
Proof.
  cbv zeta. destruct b as [x [[[] e]|]];
    unfold turn_events, turn_raise, reached, events_upto, body_events;
    cbn [fault item]; change ("train" =? "train") with true; cbv iota;
    destruct (Nat.eqb (i mod 20) 0); cbn; lia.
Qed.

Lemma train_loop_counts (g : bool) (epoch : nat) (loader : list batch) :
  forall i,
    let ev := loop_events g epoch "train" loader i in
    let k := ok_prefix_from "train" i loader in
    (k <= List.length (optim_steps ev))%nat /\
    (List.length (optim_steps ev) <= List.length (backward_calls ev))%nat /\
    (List.length (backward_calls ev) <= List.length (forward_modes ev))%nat /\
    (List.length (forward_modes ev) <= List.length (zero_grads ev))%nat /\
    (List.length (zero_grads ev) <= Nat.min (List.length loader) (S k))%nat.
Proof.
  induction loader as [|b rest IH]; intro i;
    cbn [loop_events ok_prefix_from List.length]; cbv zeta.
  - cbn. lia.
  - pose proof (train_turn_counts g epoch i b) as Ht. cbv zeta in Ht.
    unfold optim_steps, backward_calls, forward_modes, zero_grads in *.
    rewrite !filter_app, flat_map_app, !length_app.
    destruct (turn_raise "train" i b).
    + cbn [filter flat_map List.length]. lia.
    + specialize (IH (S i)). cbv zeta in IH. lia.
Qed.

(** X18.  A training pass leaves the gradient switch as it found it, on
    every path, and makes its calls in step: with k the number of turns that
    go through before the first one that raises, the numbers of calls of
    [optim.step], [backward], the network and [zero_grad] are each k or
    k + 1, there is never a step without its backward pass, a backward pass
    without its forward pass, or a forward pass without its [zero_grad], and
    when no turn raises every batch gets exactly one of each. *)
Theorem loss_pass_train_steps (loader : list batch) (epoch : nat) (w : torch) :
  let run := Trainer.loss_pass loader epoch "train" w in
  grad_enabled (fst run) = grad_enabled w /\
  exists events,
    history (fst run) = (history w ++ events)%list /\
    (ok_prefix "train" loader <= List.length (optim_steps events))%nat /\
    (List.length (optim_steps events) <= List.length (backward_calls events))%nat /\
    (List.length (backward_calls events) <= List.length (forward_modes events))%nat /\
    (List.length (forward_modes events) <= List.length (zero_grads events))%nat /\
    (List.length (zero_grads events)
       <= Nat.min (List.length loader) (S (ok_prefix "train" loader)))%nat /\
    Forall (fun m => m = grad_enabled w) (forward_modes events).
Proof.
  cbv zeta. rewrite loss_pass_run. cbv zeta.
  change ("train" =? "valid") with false. cbv iota.
  cbn [fst snd history grad_enabled].
  split; [now destruct (loop_result "train" loader 0 PrimFloat.zero) |].
  exists (loop_events (grad_enabled w) epoch "train" loader 0).
  pose proof (train_loop_counts (grad_enabled w) epoch loader 0) as H. cbv zeta in H.
  destruct H as (H1 & H2 & H3 & H4 & H5).
  split; [reflexivity |]. unfold ok_prefix.
  repeat (split; [assumption |]). apply forward_modes_loop.
Qed.

Lemma loop_events_fail_fast (g : bool) (epoch : nat) (op : string) (pre post : list batch)
    (b : batch) (e : exn) :
  forall i,
    turn_raise op (i + List.length pre) b = Some e ->
    loop_events g epoch op (pre ++ b :: post) i
    = loop_events g epoch op (pre ++ [b]) i.
Proof.
  induction pre as [|b0 pre IH]; intros i Hb; cbn [app loop_events List.length] in *.
  - rewrite Nat.add_0_r in Hb. now rewrite Hb.
  - destruct (turn_raise op i b0); [reflexivity |].
    rewrite (IH (S i)); [reflexivity |].
    now replace (S i + List.length pre)%nat with (i + S (List.length pre))%nat by lia.
Qed.

Lemma loop_result_fail_fast (op : string) (pre post : list batch) (b : batch) (e : exn) :
  forall i total,
    no_raise_from op i pre = true ->
    turn_raise op (i + List.length pre) b = Some e ->
    loop_result op (pre ++ b :: post) i total = Raise e.
Proof.
  induction pre as [|b0 pre IH]; intros i total Hok Hb;
    cbn [app loop_result no_raise_from List.length] in *.
  - rewrite Nat.add_0_r in Hb. now rewrite Hb.
  - destruct (turn_raise op i b0); [discriminate |].
    apply IH; [exact Hok |].
    now replace (S i + List.length pre)%nat with (i + S (List.length pre))%nat by lia.
Qed.

(** X19.  A pass stops at the first turn that raises, whichever of its
    external calls raises: it ends with that exception, and the batches
    behind it are never touched (the run is the same whatever follows the
    raising batch). *)
Theorem loss_pass_fail_fast (pre post : list batch) (b : batch) (e : exn) (epoch : nat)
    (op : string) (w : torch) :
  no_raise op pre = true ->
  turn_raise op (List.length pre) b = Some e ->
  snd (Trainer.loss_pass (pre ++ b :: post) epoch op w) = Raise e /\
  Trainer.loss_pass (pre ++ b :: post) epoch op w
    = Trainer.loss_pass (pre ++ [b]) epoch op w.
Proof.
  intros Hok Hb. rewrite !loss_pass_run. cbv zeta.
  rewrite (loop_events_fail_fast _ epoch op pre post b e 0 Hb).
  rewrite (loop_result_fail_fast op pre post b e 0 PrimFloat.zero Hok Hb).
  rewrite (loop_result_fail_fast op pre [] b e 0 PrimFloat.zero Hok Hb).
  split; reflexivity.
Qed.

Lemma loss_pass_fail_fast_witness :
  snd (Trainer.loss_pass
         ([good 1; good 2] ++ mkBatch 3 (Some (Backward, Exception "nan")) :: [good 3; good 4])
         0 "train" (mkTorch true [])) = Raise (Exception "nan") /\
  Trainer.loss_pass
    ([good 1; good 2] ++ mkBatch 3 (Some (Backward, Exception "nan")) :: [good 3; good 4])
    0 "train" (mkTorch true [])
    = Trainer.loss_pass ([good 1; good 2] ++ [mkBatch 3 (Some (Backward, Exception "nan"))])
        0 "train" (mkTorch true []).
Proof.
  apply (loss_pass_fail_fast [good 1; good 2] [good 3; good 4]
           (mkBatch 3 (Some (Backward, Exception "nan"))) (Exception "nan") 0 "train"
           (mkTorch true [])).
  - reflexivity.
  - reflexivity.
Defined.

Lemma multiples_of_20_below (n : nat) :
  List.length (filter (fun k => Nat.eqb (k mod 20) 0) (seq 0 n)) = ((n + 19) / 20)%nat.
Proof.
  induction n as [|n IH].
  - reflexivity.
  - rewrite seq_S, filter_app, length_app, IH. cbn [filter].
    change (0 + n)%nat with n.
    pose proof (Nat.div_mod_eq n 20) as Hn.
    pose proof (Nat.mod_upper_bound n 20 ltac:(lia)) as Hr.
    destruct (Nat.eqb_spec (n mod 20) 0) as [Hz | Hnz]; cbn [List.length].
    + assert (E1 : (n / 20 = (n + 19) / 20)%nat)
        by (apply (Nat.div_unique _ _ _ 19); lia).
      assert (E2 : (S (n / 20) = (S n + 19) / 20)%nat)
        by (apply (Nat.div_unique _ _ _ 0); lia).
      lia.
    + assert (E1 : (S (n / 20) = (n + 19) / 20)%nat)
        by (apply (Nat.div_unique _ _ _ (n mod 20 - 1)); lia).
      assert (E2 : (S (n / 20) = (S n + 19) / 20)%nat)
        by (apply (Nat.div_unique _ _ _ (n mod 20)); lia).
      lia.
Qed.

Lemma visualize_steps_turn (g : bool) (epoch : nat) (op : string) (i : nat) (b : batch) :
  turn_raise op i b = None ->
  visualize_steps (turn_events g epoch op i b)
  = if Nat.eqb (i mod 20) 0 then [epoch] else [].
Proof. turn_cases b op i; intro H; try discriminate; reflexivity. Qed.

Lemma visualize_steps_loop (g : bool) (epoch : nat) (op : string) (loader : list batch) :
  forall i,
    no_raise_from op i loader = true ->
    visualize_steps (loop_events g epoch op loader i)
    = map (fun _ => epoch)
        (filter (fun k => Nat.eqb (k mod 20) 0) (seq i (List.length loader))).
Proof.
  induction loader as [|b rest IH]; intros i Hok;
    cbn [loop_events List.length seq no_raise_from] in *.
  - reflexivity.
  - unfold visualize_steps. rewrite flat_map_app.
    fold (visualize_steps (turn_events g epoch op i b)).
    destruct (turn_raise op i b) eqn:E; [discriminate |].
    rewrite (visualize_steps_turn g epoch op i b E).
    fold (visualize_steps (loop_events g epoch op rest (S i))).
    rewrite (IH (S i) Hok). cbn [filter].
    destruct (Nat.eqb (i mod 20) 0); reflexivity.
Qed.

(** X20.  In a pass whose turns all go through, [visualize_batch] is called
    for the batches number 0, 20, 40, ... and for no other, each time with
    the epoch as [global_step]: for n batches that is the whole part of
    (n + 19) / 20 calls. *)
Theorem loss_pass_visualizes_every_20th (loader : list batch) (epoch : nat) (op : string)
    (w : torch) :
  no_raise op loader = true ->
  let run := Trainer.loss_pass loader epoch op w in
  exists events,
    history (fst run) = (history w ++ events)%list /\
    visualize_steps events
      = map (fun _ => epoch)
          (filter (fun k => Nat.eqb (k mod 20) 0) (seq 0 (List.length loader))) /\
    List.length (visualize_steps events) = ((List.length loader + 19) / 20)%nat.
Proof.
  intros Hok run. subst run. rewrite loss_pass_run. cbv zeta.
  cbn [fst history].
  eexists. split; [reflexivity |].
  rewrite (visualize_steps_loop _ epoch op loader 0 Hok).
  split; [reflexivity |].
  rewrite length_map. apply multiples_of_20_below.
Qed.

Lemma loss_pass_visualizes_every_20th_witness :
  let loader := repeat (good 0.5) 41 in
  let run := Trainer.loss_pass loader 7 "train" (mkTorch true []) in
  exists events,
    history (fst run) = (history (mkTorch true []) ++ events)%list /\
    visualize_steps events
      = map (fun _ => 7%nat)
          (filter (fun k => Nat.eqb (k mod 20) 0) (seq 0 (List.length loader))) /\
    List.length (visualize_steps events) = ((List.length loader + 19) / 20)%nat.
Proof.
  apply (loss_pass_visualizes_every_20th (repeat (good 0.5) 41) 7 "train"
           (mkTorch true [])).
  reflexivity.
Defined.

(** ** A whole run of [TRAIN] *)

Lemma scalars_app (h1 h2 : list train_event) :
  scalars (h1 ++ h2) = (scalars h1 ++ scalars h2)%list.
Proof. apply flat_map_app. Qed.

Lemma closings_app (h1 h2 : list train_event) :
  closings (h1 ++ h2) = (closings h1 ++ closings h2)%list.
Proof. apply filter_app. Qed.

Lemma scalars_turn (g : bool) (epoch : nat) (op : string) (i : nat) (b : batch) :
  scalars (turn_events g epoch op i b) = [].
Proof. turn_cases b op i; reflexivity. Qed.

Lemma closings_turn (g : bool) (epoch : nat) (op : string) (i : nat) (b : batch) :
  closings (turn_events g epoch op i b) = [].
Proof. turn_cases b op i; reflexivity. Qed.

Lemma scalars_loop (g : bool) (epoch : nat) (op : string) (loader : list batch) :
  forall i, scalars (loop_events g epoch op loader i) = [].
Proof.
  induction loader as [|b rest IH]; intro i; cbn [loop_events].
  - reflexivity.
  - rewrite scalars_app, scalars_turn.
    destruct (turn_raise op i b); [reflexivity | apply IH].
Qed.

Lemma closings_loop (g : bool) (epoch : nat) (op : string) (loader : list batch) :
  forall i, closings (loop_events g epoch op loader i) = [].
Proof.
  induction loader as [|b rest IH]; intro i; cbn [loop_events].
  - reflexivity.
  - rewrite closings_app, closings_turn.
    destruct (turn_raise op i b); [reflexivity | apply IH].
Qed.

(** One epoch in which no turn raises, call by call. *)
Lemma TRAIN_epoch_exact (tr va : nat -> list batch) (bt bv : float) (epoch : nat)
    (w : torch) :
  no_raise "train" (tr epoch) = true ->
  no_raise "valid" (va epoch) = true ->
  Trainer.TRAIN_epoch tr va (bt, bv) epoch w =
    (mkTorch true (history w ++ epoch_events tr va bt bv epoch (grad_enabled w))%list,
     Ok (next_best bt (pass_total (tr epoch)), next_best bv (pass_total (va epoch)))).
Proof.
  intros Htr Hva.
  pose proof (pass_no_raise _ _ Htr) as Rt.
  pose proof (pass_no_raise _ _ Hva) as Rv.
  unfold Trainer.TRAIN_epoch, next_best, epoch_events.
  unfold bind at 1. rewrite loss_pass_run. cbv zeta. rewrite Rt.
  unfold bind at 1. rewrite loss_pass_run. cbv zeta. rewrite Rv.
  cbn [grad_enabled history].
  change ("train" =? "valid") with false. change ("valid" =? "valid") with true.
  cbv iota.
  destruct (best_gt bt (pass_total (tr epoch))), (best_gt bv (pass_total (va epoch)));
    unfold bind, emit, ret; cbn [grad_enabled history];
    repeat rewrite <- app_assoc; reflexivity.
Qed.

Lemma TRAIN_loop_exact (tr va : nat -> list batch) (es : list nat) :
  (forall e, In e es -> no_raise "train" (tr e) = true /\ no_raise "valid" (va e) = true) ->
  forall (bt bv : float) (w : torch),
  exists w',
    Trainer.TRAIN_loop tr va es (bt, bv) w =
      (w', Ok (final_best (fun e => pass_total (tr e)) es bt,
               final_best (fun e => pass_total (va e)) es bv)) /\
    scalars (history w') =
      (scalars (history w)
       ++ flat_map (fun e => [("Train Loss", pass_total (tr e), e);
                              ("Valid Loss", pass_total (va e), e)]) es)%list /\
    closings (history w') = closings (history w).
Proof.
  induction es as [|e rest IH]; intros Hok bt bv w;
    cbn [Trainer.TRAIN_loop final_best fold_left flat_map].
  - exists w. rewrite app_nil_r. repeat split.
  - destruct (Hok e (or_introl eq_refl)) as [Htr Hva].
    run_ok (TRAIN_epoch_exact tr va bt bv e w Htr Hva).
    destruct (IH (fun e' He' => Hok e' (or_intror He'))
                 (next_best bt (pass_total (tr e))) (next_best bv (pass_total (va e)))
                 (mkTorch true
                    (history w ++ epoch_events tr va bt bv e (grad_enabled w))%list))
      as (w2 & Hloop & Hs & Hc).
    exists w2. split; [exact Hloop |].
    rewrite Hs, Hc. cbn [history]. unfold epoch_events.
    repeat rewrite scalars_app. repeat rewrite closings_app.
    repeat rewrite scalars_loop. repeat rewrite closings_loop.
    destruct (best_gt bt (pass_total (tr e))), (best_gt bv (pass_total (va e)));
      cbn; repeat rewrite app_nil_r; repeat rewrite <- app_assoc; split; reflexivity.
Qed.

(** X21.  In a run whose passes all return, [add_scalar] is called twice per
    epoch and at no other time: 'Train Loss' with the train loss of the
    epoch, then 'Valid Loss' with its validation loss, both with the epoch
    as step, in epoch order. *)
Theorem TRAIN_scalars (num_epochs : Z)
    (train_dataloader valid_dataloader : nat -> list batch) (w : torch) :
  (forall e, (e < Z.to_nat num_epochs)%nat ->
     no_raise "train" (train_dataloader e) = true /\
     no_raise "valid" (valid_dataloader e) = true) ->
  let run := Trainer.TRAIN num_epochs train_dataloader valid_dataloader w in
  scalars (history (fst run)) =
    (scalars (history w)
     ++ flat_map (fun e => [("Train Loss", pass_total (train_dataloader e), e);
                            ("Valid Loss", pass_total (valid_dataloader e), e)])
          (py_range num_epochs))%list.
Proof.
  intros Hok run. subst run.
  assert (Hin : forall e, In e (py_range num_epochs) ->
            no_raise "train" (train_dataloader e) = true /\
            no_raise "valid" (valid_dataloader e) = true).
  { intros e He. apply Hok. unfold py_range in He. apply in_seq in He. lia. }
  destruct (TRAIN_loop_exact train_dataloader valid_dataloader (py_range num_epochs) Hin
              infinity infinity w) as (w1 & Hloop & Hs & _).
  unfold Trainer.TRAIN. cbv zeta. run_ok Hloop.
  unfold bind, emit. cbn [fst snd history grad_enabled].
  repeat rewrite scalars_app. rewrite Hs. cbn [scalars flat_map].
  now repeat rewrite app_nil_r.
Qed.

Lemma TRAIN_scalars_witness :
  let run := Trainer.TRAIN 3 sample_train_loader sample_valid_loader (mkTorch true []) in
  scalars (history (fst run)) =
    (scalars (history (mkTorch true []))
     ++ flat_map (fun e => [("Train Loss", pass_total (sample_train_loader e), e);
                            ("Valid Loss", pass_total (sample_valid_loader e), e)])
          (py_range 3))%list.
Proof.
  apply (TRAIN_scalars 3 sample_train_loader sample_valid_loader (mkTorch true [])).
  intros e He.
  destruct e as [|[|[|e]]]; [split; reflexivity | split; reflexivity | split; reflexivity |].
  exfalso. change (Z.to_nat 3) with 3%nat in He. lia.
Defined.

Lemma final_best_tracks (L : nat -> float) (m : nat) :
  forall (a : nat) (best : float),
    tracks_minimum L a best -> tracks_minimum L (a + m) (final_best L (seq a m) best).
Proof.
  induction m as [|m IH]; intros a best Hb; cbn [seq final_best fold_left].
  - now rewrite Nat.add_0_r.
  - replace (a + S m)%nat with (S a + m)%nat by lia.
    apply (IH (S a)). now apply tracks_minimum_next.
Qed.

(** X22.  A run whose passes all return ends with [log_training] and then
    [close], and each of the two losses handed to [log_training] is either
    [float('inf')] or the loss of one of the epochs, a number below [+inf],
    and no epoch has a loss below it: NaN losses are passed over, and a run
    whose losses are all NaN or [+inf] reports [float('inf')]. *)
Theorem TRAIN_reports_minima (num_epochs : Z)
    (train_dataloader valid_dataloader : nat -> list batch) (w : torch) :
  (forall e, (e < Z.to_nat num_epochs)%nat ->
     no_raise "train" (train_dataloader e) = true /\
     no_raise "valid" (valid_dataloader e) = true) ->
  let train_loss := fun e => pass_total (train_dataloader e) in
  let valid_loss := fun e => pass_total (valid_dataloader e) in
  let run := Trainer.TRAIN num_epochs train_dataloader valid_dataloader w in
  exists h best_train best_valid,
    history (fst run) = (h ++ [TLogTraining best_train best_valid; TClose])%list /\
    best_before train_loss (Z.to_nat num_epochs) best_train /\
    best_before valid_loss (Z.to_nat num_epochs) best_valid.
Proof.
  intros Hok train_loss valid_loss run. subst run.
  assert (Hin : forall e, In e (py_range num_epochs) ->
            no_raise "train" (train_dataloader e) = true /\
            no_raise "valid" (valid_dataloader e) = true).
  { intros e He. apply Hok. unfold py_range in He. apply in_seq in He. lia. }
  destruct (TRAIN_loop_exact train_dataloader valid_dataloader (py_range num_epochs) Hin
              infinity infinity w) as (w1 & Hloop & _ & _).
  unfold Trainer.TRAIN. cbv zeta. run_ok Hloop.
  unfold bind, emit. cbn [fst snd history grad_enabled].
  exists (history w1), (final_best train_loss (py_range num_epochs) infinity),
         (final_best valid_loss (py_range num_epochs) infinity).
  split; [now rewrite <- app_assoc |].
  unfold py_range.
  split; apply tracks_minimum_best_before;
    apply (final_best_tracks _ (Z.to_nat num_epochs) 0%nat infinity);
    apply tracks_minimum_start.
Qed.

Lemma TRAIN_reports_minima_witness :
  let train_loss := fun e => pass_total (sample_train_loader e) in
  let valid_loss := fun e => pass_total (sample_valid_loader e) in
  let run := Trainer.TRAIN 3 sample_train_loader sample_valid_loader (mkTorch true []) in
  exists h best_train best_valid,
    history (fst run) = (h ++ [TLogTraining best_train best_valid; TClose])%list /\
    best_before train_loss (Z.to_nat 3) best_train /\
    best_before valid_loss (Z.to_nat 3) best_valid.
Proof.
  apply (TRAIN_reports_minima 3 sample_train_loader sample_valid_loader (mkTorch true [])).
  intros e He.
  destruct e as [|[|[|e]]]; [split; reflexivity | split; reflexivity | split; reflexivity |].
  exfalso. change (Z.to_nat 3) with 3%nat in He. lia.
Defined.

(** An epoch never reports or closes, whatever its batches do. *)
Lemma TRAIN_epoch_closings (tr va : nat -> list batch) (best : float * float)
    (epoch : nat) (w : torch) :
  closings (history (fst (Trainer.TRAIN_epoch tr va best epoch w))) = closings (history w).
Proof.
  destruct best as [bt bv]. unfold Trainer.TRAIN_epoch.
  unfold bind at 1. rewrite loss_pass_run. cbv zeta.
  destruct (loop_result "train" (tr epoch) 0 PrimFloat.zero) as [tl | e]; cbn [fst history].
  - unfold bind at 1. rewrite loss_pass_run. cbv zeta. cbn [history grad_enabled].
    destruct (loop_result "valid" (va epoch) 0 PrimFloat.zero) as [vl | e]; cbn [fst history].
    + destruct (best_gt bt tl), (best_gt bv vl);
        unfold bind, emit, ret; cbn [fst history grad_enabled];
        repeat rewrite closings_app; repeat rewrite closings_loop; cbn;
        now repeat rewrite app_nil_r.
    + repeat rewrite closings_app. repeat rewrite closings_loop.
      now repeat rewrite app_nil_r.
  - rewrite closings_app, closings_loop. now rewrite app_nil_r.
Qed.

Lemma TRAIN_loop_closings (tr va : nat -> list batch) (es : list nat) :
  forall best w,
    closings (history (fst (Trainer.TRAIN_loop tr va es best w))) = closings (history w).
Proof.
  induction es as [|e rest IH]; intros best w; cbn [Trainer.TRAIN_loop].
  - reflexivity.
  - unfold bind. pose proof (TRAIN_epoch_closings tr va best e w) as He.
    destruct (Trainer.TRAIN_epoch tr va best e w) as [w1 [best1 | ex]]; cbn [fst] in He.
    + now rewrite IH.
    + exact He.
Qed.

(** X23.  [TRAIN] reports and closes the writer only at the very end of a run
    that got through all its epochs: when the run returns, [log_training]
    and [close] have been called once each, in this order; when a batch
    raises, neither has been called (the writer stays open). *)
Theorem TRAIN_closes_only_on_return (num_epochs : Z)
    (train_dataloader valid_dataloader : nat -> list batch) (w : torch) :
  let run := Trainer.TRAIN num_epochs train_dataloader valid_dataloader w in
  match snd run with
  | Ok _ =>
      exists best_train best_valid,
        closings (history (fst run)) =
          (closings (history w) ++ [TLogTraining best_train best_valid; TClose])%list
  | Raise _ => closings (history (fst run)) = closings (history w)
  end.
Proof.
  cbv zeta. unfold Trainer.TRAIN. cbv zeta.
  pose proof (TRAIN_loop_closings train_dataloader valid_dataloader
                (py_range num_epochs) (infinity, infinity) w) as Hc.
  destruct (Trainer.TRAIN_loop train_dataloader valid_dataloader (py_range num_epochs)
              (infinity, infinity) w) as [w1 [best | e]] eqn:E; cbn [fst] in Hc.
  - run_ok E. unfold bind, emit. cbn [fst snd history grad_enabled].
    exists (fst best), (snd best).
    repeat rewrite closings_app. rewrite Hc. cbn. now rewrite <- app_assoc.
  - run_raise E. cbn [fst snd]. exact Hc.
Qed.

(** ** The train/validation split *)

Lemma clamp_index_bounds (n k : Z) :
  (0 <= n)%Z -> (0 <= clamp_index n k <= n)%Z.
Proof. intro Hn. unfold clamp_index. destruct (Z.ltb_spec k 0); lia. Qed.

Lemma py_slice_upto {A : Type} (k : Z) (l : list A) :
  py_slice 0 (Some k) l
  = firstn (Z.to_nat (clamp_index (Z.of_nat (List.length l)) k)) l.
Proof.
  unfold py_slice. set (n := Z.of_nat (List.length l)).
  assert (H0 : clamp_index n 0 = 0%Z).
  { unfold clamp_index. change (0 <? 0)%Z with false. cbv iota.
    apply Z.min_l. unfold n. lia. }
  rewrite H0. cbn [Z.to_nat skipn]. now rewrite Z.sub_0_r.
Qed.

Lemma py_slice_onward {A : Type} (k : Z) (l : list A) :
  py_slice k None l
  = skipn (Z.to_nat (clamp_index (Z.of_nat (List.length l)) k)) l.
Proof.
  unfold py_slice. set (n := Z.of_nat (List.length l)).
  pose proof (clamp_index_bounds n k ltac:(unfold n; lia)) as Hk.
  apply firstn_all2. rewrite length_skipn. unfold n in *. lia.
Qed.

Lemma py_slice_split {A : Type} (k : Z) (l : list A) :
  (py_slice 0 (Some k) l ++ py_slice k None l)%list = l.
Proof. rewrite py_slice_upto, py_slice_onward. apply firstn_skipn. Qed.

Lemma py_int_floor_number (x : float) :
  match py_int_floor x with
  | Ok _ => is_number x = true
  | Raise _ => is_number x = false
  end.
Proof. unfold py_int_floor, is_number. now destruct (Prim2SF x). Qed.

(** X24.  Whatever the split fraction (negative and above 1 included),
    [get_dataloaders] raises exactly when the product [vsplit * len(dataset)]
    is NaN or an infinity; otherwise the validation indices followed by the
    train indices are the shuffled index list itself: every sample of the
    dataset is in exactly one of the two samplers. *)
Theorem get_dataloaders_partition (vsplit : float) (dset_size : nat)
    (shuffle : list nat -> list nat) :
  Permutation (shuffle (seq 0 dset_size)) (seq 0 dset_size) ->
  match Trainer.get_dataloaders vsplit dset_size shuffle with
  | Ok (train_idxs, val_idxs) =>
      is_number (vsplit * float_of_len dset_size)%float = true /\
      (val_idxs ++ train_idxs)%list = shuffle (seq 0 dset_size) /\
      Permutation (val_idxs ++ train_idxs) (seq 0 dset_size) /\
      NoDup (val_idxs ++ train_idxs)
  | Raise _ => is_number (vsplit * float_of_len dset_size)%float = false
  end.
Proof.
  intros Hperm. unfold Trainer.get_dataloaders. cbv zeta.
  pose proof (py_int_floor_number (vsplit * float_of_len dset_size)%float) as Hn.
  destruct (py_int_floor (vsplit * float_of_len dset_size)%float) as [split | e];
    cbn [rbind]; [| exact Hn].
  split; [exact Hn |].
  rewrite py_slice_split.
  split; [reflexivity |]. split; [exact Hperm |].
  apply (Permutation_NoDup (Permutation_sym Hperm)). apply seq_NoDup.
Qed.

(** With [vsplit = 0.7] on ten samples the product of the two doubles is 7:
    seven validation indices, three train indices. *)
Lemma get_dataloaders_partition_witness :
  match Trainer.get_dataloaders 0.7 10 (@rev nat) with
  | Ok (train_idxs, val_idxs) =>
      is_number (0.7 * float_of_len 10)%float = true /\
      (val_idxs ++ train_idxs)%list = rev (seq 0 10) /\
      Permutation (val_idxs ++ train_idxs) (seq 0 10) /\
      NoDup (val_idxs ++ train_idxs)
  | Raise _ => is_number (0.7 * float_of_len 10)%float = false
  end.
Proof.
  apply (get_dataloaders_partition 0.7 10 (@rev nat)).
  apply Permutation_sym, Permutation_rev.
Defined.

(** X25.  When [int(np.floor(vsplit * len(dataset)))] is the integer
    [split], the validation sampler gets [idxs[:split]] and the train
    sampler [idxs[split:]] of the shuffled list: [split] validation indices
    when [split] lies between 0 and the size n of the dataset, all n when it
    is above n (no train index is left), and n + split of them, or none,
    when it is negative (a negative fraction takes indices off the end
    instead of giving an empty validation set). *)
Theorem get_dataloaders_sizes (vsplit : float) (dset_size : nat)
    (shuffle : list nat -> list nat) (split : Z) :
  Permutation (shuffle (seq 0 dset_size)) (seq 0 dset_size) ->
  py_int_floor (vsplit * float_of_len dset_size)%float = Ok split ->
  exists train_idxs val_idxs,
    Trainer.get_dataloaders vsplit dset_size shuffle = Ok (train_idxs, val_idxs) /\
    let n := Z.of_nat dset_size in
    let k := Z.to_nat (if (split <? 0)%Z then Z.max (split + n) 0 else Z.min split n) in
    val_idxs = firstn k (shuffle (seq 0 dset_size)) /\
    train_idxs = skipn k (shuffle (seq 0 dset_size)) /\
    List.length val_idxs = k /\
    List.length train_idxs = (dset_size - k)%nat.
Proof.
  intros Hperm Hsplit.
  set (l := shuffle (seq 0 dset_size)).
  assert (Hlen : List.length l = dset_size).
  { unfold l. rewrite (Permutation_length Hperm). apply length_seq. }
  exists (py_slice split None l), (py_slice 0 (Some split) l).
  split.
  { unfold Trainer.get_dataloaders. cbv zeta. rewrite Hsplit. reflexivity. }
  cbv zeta. rewrite py_slice_upto, py_slice_onward, Hlen.
  fold (clamp_index (Z.of_nat dset_size) split).
  pose proof (clamp_index_bounds (Z.of_nat dset_size) split ltac:(lia)) as Hk.
  split; [reflexivity |]. split; [reflexivity |].
  rewrite length_firstn, length_skipn, Hlen. lia.
Qed.

(** [0.29 * 100] is the double just below 29: the validation sampler of a
    hundred samples gets 28 indices, the train sampler 72. *)
Lemma get_dataloaders_sizes_witness :
  exists train_idxs val_idxs,
    Trainer.get_dataloaders 0.29 100 (@rev nat) = Ok (train_idxs, val_idxs) /\
    val_idxs = firstn 28 (rev (seq 0 100)) /\
    train_idxs = skipn 28 (rev (seq 0 100)) /\
    List.length val_idxs = 28%nat /\
    List.length train_idxs = 72%nat.
Proof.
  apply (get_dataloaders_sizes 0.29 100 (@rev nat) 28).
  - apply Permutation_sym, Permutation_rev.
  - reflexivity.
Defined.

(** ** Looking for linear layers *)

Lemma py_str_startswith_prefix (p s : string) :
  py_str_startswith p s = true <-> exists post, s = p ++ post.
Proof.
  revert s. induction p as [| a p IH]; intros s; cbn.
  - split; [intros _; now exists s | reflexivity].
  - destruct s as [| b s].
    + split; [discriminate | intros [post H]; discriminate].
    + rewrite Bool.andb_true_iff, Ascii.eqb_eq, IH. split.
      * intros [-> [post ->]]. now exists post.
      * intros [post H]. injection H as -> ->. split; [reflexivity |].
        now exists post.
Qed.

Lemma py_str_in_substring (p s : string) :
  py_str_in p s = true <-> exists pre post, s = pre ++ p ++ post.
Proof.
  induction s as [| b s IH].
  - cbn [py_str_in]. rewrite Bool.orb_false_r, py_str_startswith_prefix. split.
    + intros [post H]. now exists "", post.
    + intros [[| c pre] [post H]]; [now exists post | discriminate].
  - cbn [py_str_in]. rewrite Bool.orb_true_iff, py_str_startswith_prefix, IH.
    split.
    + intros [[post H] | [pre [post H]]].
      * now exists "", post.
      * exists (String b pre), post. cbn. now rewrite H.
    + intros [[| c pre] [post H]].
      * left. now exists post.
      * right. cbn in H. injection H as _ H. now exists pre, post.
Qed.

(** X26.  [hasLinear] decides by name alone: it answers [True] exactly when
    the name of some module of the net contains the two letters [fc]
    anywhere, whatever the type of that module, and [False] for a net whose
    linear layers are named otherwise. *)
Theorem hasLinear_by_name (named_modules : list string) :
  Trainer.hasLinear named_modules = true <->
  exists m pre post, In m named_modules /\ m = pre ++ "fc" ++ post.
Proof.
  induction named_modules as [| m rest IH]; cbn [Trainer.hasLinear].
  - split; [discriminate | intros [m [pre [post [[] _]]]]].
  - destruct (py_str_in "fc" m) eqn:E.
    + split; [intros _ | reflexivity].
      apply py_str_in_substring in E as [pre [post E]].
      exists m, pre, post. split; [now left | exact E].
    + rewrite IH. split.
      * intros [m' [pre [post [Hin Hm]]]]. exists m', pre, post.
        split; [now right | exact Hm].
      * intros [m' [pre [post [[<- | Hin] Hm]]]].
        -- assert (T : py_str_in "fc" m = true)
             by (apply py_str_in_substring; now exists pre, post).
           congruence.
        -- now exists m', pre, post.
Qed.
